(** * Models and queries of the Flask / SQLAlchemy demo application (app.py)

    A shallow embedding of [app.py]: the three mapped classes and the
    association table, the random data generator and the canned queries.

    Conventions.
    - A [datetime] is a number of microseconds since 1970-01-01 00:00:00 on
      the naive clock of the application; Python holds the years 1 to 9999.
    - An INTEGER of SQLite has 64 bits; a REAL is a double, modelled by the
      rational it denotes, each operation rounding to the nearest double.
    - A table is the list of its rows in storage order.
    - Python's [random] module and the Faker generator draw from one tape of
      raw numbers; every library function maps a raw draw into its range, so
      that quantifying over tapes quantifies over all outcomes.
    - [print] appends the printed object to the standard output of the
      world; a function that ends without [return] yields [VNone]. *)

From Stdlib Require Import List ZArith NArith String Ascii Bool Lia.
From Stdlib Require Import Permutation Sorted QArith Qround Qabs Qpower Lqa.
Import ListNotations.
Open Scope Z_scope.

(* ================================================================== *)
(** * Part I. Definitions                                              *)
(* ================================================================== *)

(** ** Python exceptions and results *)

Inductive exn : Type :=
| IndexError      (* random.choice on an empty sequence *)
| ValueError      (* empty range, sample larger than population *)
| IntegrityError  (* a UNIQUE / PRIMARY KEY constraint failed on flush *)
| OverflowError   (* a date, a timedelta or a bound integer out of range *)
| OperationalError (* the engine gave up: integer overflow in SUM *)
| SyntaxError.    (* the text is not a Python statement *)

Inductive result (A : Type) : Type :=
| Ok (a : A)
| Raise (e : exn).
Arguments Ok {A} a.
Arguments Raise {A} e.

(** A naive [datetime], in microseconds since 1970-01-01 00:00:00. *)
Definition datetime := Z.

(** [datetime.min] and [datetime.max]: the first instant of the year 1 and
    the last microsecond of the year 9999. *)
Definition datetime_min : datetime := -62135596800000000.
Definition datetime_max : datetime := 253402300799999999.

(** The timestamp of a date as Faker takes it ([timegm] of the time tuple):
    its whole seconds. *)
Definition whole_seconds (t : datetime) : Z := t / 1000000.

(** The first microsecond of a second. *)
Definition of_seconds (s : Z) : datetime := s * 1000000.

(** The 64-bit integers of SQLite. *)
Definition in_int64 (z : Z) : bool :=
  (-9223372036854775808 <=? z) && (z <=? 9223372036854775807).

(** ** The mapped classes (lines 18-47) *)

Module Customer.
Record t : Type := Build
  { id : Z;
    first_name : string;
    last_name : string;
    address : string;
    city : string;
    postcode : string;
    email : string }.
End Customer.

Module Order.
Record t : Type := Build
  { id : Z;
    order_date : datetime;
    shipped_date : option datetime;
    delivered_date : option datetime;
    coupon_code : option string;
    customer_id : Z }.
End Order.

Module Product.
Record t : Type := Build
  { id : Z;
    name : string;
    price : Z }.
End Product.

(** A row of the association table [order_product]. *)
Module OrderProduct.
Record t : Type := Build
  { order_id : Z;
    product_id : Z }.
End OrderProduct.

Record Database : Type := mkDatabase
  { customers : list Customer.t;
    orders : list Order.t;
    products : list Product.t;
    order_product : list OrderProduct.t }.

(** [db.create_all()] on a fresh connection string: four empty tables. *)
Definition empty_db : Database := mkDatabase [] [] [] [].

(** The primary keys declared by the schema. *)
Definition primary_keys_ok (d : Database) : Prop :=
  NoDup (map Customer.id (customers d))
  /\ NoDup (map Order.id (orders d))
  /\ NoDup (map Product.id (products d)).

(** ** Python objects that are printed or returned *)

Inductive value : Type :=
| VNone
| VInt (z : Z)
| VStr (s : string)
| VDateTime (t : datetime)
| VOrders (l : list Order.t)
| VCustomers (l : list Customer.t).

Definition of_option {A} (inj : A -> value) (o : option A) : value :=
  match o with
  | Some a => inj a
  | None => VNone
  end.

(** ** The world: database, position on the random tape, standard output *)

Record World : Type := mkWorld
  { db : Database;
    rng : N;
    stdout : list value }.

Definition M (A : Type) : Type := World -> result (A * World).

Definition ret {A} (a : A) : M A := fun w => Ok (a, w).

Definition bind {A B} (m : M A) (k : A -> M B) : M B :=
  fun w =>
    match m w with
    | Ok (a, w') => k a w'
    | Raise e => Raise e
    end.

Definition raise {A} (e : exn) : M A := fun _ => Raise e.

Declare Scope py_scope.
Delimit Scope py_scope with py.
Notation "x <- m ;; k" := (bind m (fun x => k))
  (at level 100, m at next level, right associativity) : py_scope.
Notation "m ;; k" := (bind m (fun _ => k))
  (at level 100, right associativity) : py_scope.
Open Scope py_scope.

(** [for x in l: body x] *)
Fixpoint for_each {A} (l : list A) (body : A -> M unit) : M unit :=
  match l with
  | [] => ret tt
  | x :: rest => body x ;; for_each rest body
  end.

(** [[e for _ in range(n)]] with an effectful [e]. *)
Fixpoint replicateM {A} (n : nat) (m : M A) : M (list A) :=
  match n with
  | O => ret []
  | S n' => a <- m ;; rest <- replicateM n' m ;; ret (a :: rest)
  end.

(** [[f x for x in l]] with an effectful [f]. *)
Fixpoint mapM {A B} (f : A -> M B) (l : list A) : M (list B) :=
  match l with
  | [] => ret []
  | x :: rest => b <- f x ;; bs <- mapM f rest ;; ret (b :: bs)
  end.

Definition print (v : value) : M unit :=
  fun w => Ok (tt, mkWorld (db w) (rng w) (stdout w ++ [v])).

(** Run a SELECT: reads the database, changes nothing. *)
Definition query {A} (q : Database -> A) : M A :=
  fun w => Ok (q (db w), w).

(** Run a SELECT that the engine, or the evaluation of its parameters, may
    refuse. *)
Definition execute {A} (q : Database -> result A) : M A :=
  fun w =>
    match q (db w) with
    | Ok a => Ok (a, w)
    | Raise e => Raise e
    end.

(** ** SQL building blocks *)

Fixpoint zsum {A} (f : A -> Z) (l : list A) : Z :=
  match l with
  | [] => 0
  | a :: rest => f a + zsum f rest
  end.

(** The running total of SUM over INTEGER values: the engine gives up
    (integer overflow) as soon as the total leaves the 64 bits. *)
Fixpoint sum_from (total : Z) (l : list Z) : result Z :=
  match l with
  | [] => Ok total
  | z :: rest =>
      if in_int64 (total + z) then sum_from (total + z) rest
      else Raise OperationalError
  end.

(** SUM over the selected rows: NULL when there is no row. *)
Definition sql_sum (l : list Z) : result (option Z) :=
  match l with
  | [] => Ok None
  | _ =>
      match sum_from 0 l with
      | Ok total => Ok (Some total)
      | Raise e => Raise e
      end
  end.

(** The integer nearest to [x], the even one of two. *)
Definition round_half_even (x : Q) : Z :=
  let f := Qfloor x in
  match (x - inject_Z f ?= 1 # 2)%Q with
  | Lt => f
  | Gt => f + 1
  | Eq => if Z.even f then f else f + 1
  end.

(** The binade of [x], not zero: the [e] with [2 ^ e <= |x| < 2 ^ (e + 1)]. *)
Definition binade (x : Q) : Z :=
  let e := Z.log2 (Z.abs (Qnum x)) - Z.log2 (Zpos (Qden x)) in
  if Qle_bool (2 ^ e)%Q (Qabs x) then e else e - 1.

(** The double nearest to [x]: 53 significant bits, a tie going to the even
    significand. The values met here (sums and averages of 64-bit integers,
    instants in milliseconds) are zero or lie inside the normal range of a
    double, so the exponent is left unbounded. *)
Definition double (x : Q) : Q :=
  if Qeq_bool x 0 then 0%Q
  else
    let scale := (2 ^ (52 - binade x))%Q in
    (inject_Z (round_half_even (x * scale)) / scale)%Q.

(** AVG over the selected INTEGER rows: NULL when there is no row, else the
    REAL quotient of the running REAL total by the count. *)
Definition sql_avg (l : list Z) : option Q :=
  match l with
  | [] => None
  | _ =>
      let total :=
        fold_left (fun acc z => double (acc + double (inject_Z z))%Q) l 0%Q
      in
      Some (double
              (total / double (inject_Z (Z.of_nat (List.length l))))%Q)
  end.

(** Inner join: the pairs of rows satisfying the ON condition. *)
Definition join {A B} (on : A -> B -> bool) (l : list A) (r : list B)
  : list (A * B) :=
  flat_map (fun a => map (pair a) (filter (on a) r)) l.

(** Three-valued comparison [column != literal]. *)
Definition sql_ne (col : option string) (lit : string) : option bool :=
  match col with
  | Some s => Some (negb (String.eqb s lit))
  | None => None
  end.

(** A WHERE clause keeps the rows on which the condition is true (neither
    false nor NULL). *)
Definition is_true3 (b : option bool) : bool :=
  match b with
  | Some true => true
  | _ => false
  end.

Definition is_none {A} (o : option A) : bool :=
  match o with
  | None => true
  | Some _ => false
  end.

(** ORDER BY key DESC, by insertion. *)
Fixpoint insert_desc {A} (key : A -> Z) (x : A) (l : list A) : list A :=
  match l with
  | [] => [x]
  | y :: rest =>
      if key y <? key x then x :: l else y :: insert_desc key x rest
  end.

Definition order_by_desc {A} (key : A -> Z) (l : list A) : list A :=
  fold_right (insert_desc key) [] l.

(** strftime('%s', d) on the stored text of a date: the engine keeps the
    instant to the nearest millisecond and gives its whole seconds; the
    answer is NULL when the millisecond is past the year 9999. *)
Definition strftime_s (d : datetime) : option Z :=
  let ms := (d + 500) / 1000 in
  if ms <=? 253402300799999 then Some (ms / 1000) else None.

Definition digit (n : Z) : ascii :=
  ascii_of_nat (48 + Z.to_nat n).

Definition two_digits (n : Z) : string :=
  String (digit (n / 10)) (String (digit (n mod 10)) EmptyString).

Definition format_hms (h m s : Z) : string :=
  (two_digits h ++ ":" ++ two_digits m ++ ":" ++ two_digits s)%string.

(** 1970-01-01 00:00:00 in milliseconds since noon of the day 0 of the
    Julian calendar, the instant from which the engine counts. *)
Definition unix_epoch_ms : Z := 210866760000000.

(** The last millisecond of the year 9999, counted the same way. *)
Definition last_ms : Z := 464269060799999.

(** The instant [x] seconds after 1970-01-01 00:00:00 as the engine keeps
    it, in whole milliseconds of its own count:
    [x * 1000.0 + 210866760000000.0], then [+ 0.5] and the cut to an
    integer, all on doubles. No instant (NULL) before the day 0 of that
    count or after the year 9999. *)
Definition sqlite_milliseconds (x : Q) : option Z :=
  let r := double (double (x * 1000) + inject_Z unix_epoch_ms)%Q in
  if Qle_bool 0 r && negb (Qle_bool (inject_Z (last_ms + 1)) r)
  then
    let ms := Qfloor (double (r + (1 # 2))%Q) in
    if ms <=? last_ms then Some ms else None
  else None.

(** HH:MM:SS of the whole seconds of the time of day of an instant. *)
Definition time_of_ms (ms : Z) : string :=
  let s := (ms + 43200000) mod 86400000 / 1000 in
  let h := s / 3600 in
  let s' := s - h * 3600 in
  let m := s' / 60 in
  format_hms h m (s' - m * 60).

(** time(x, 'unixepoch') *)
Definition sqlite_time_unixepoch (x : Q) : option string :=
  option_map time_of_ms (sqlite_milliseconds x).

(** The values of a column expression that are not NULL. *)
Fixpoint not_null {A} (l : list (option A)) : list A :=
  match l with
  | [] => []
  | Some a :: rest => a :: not_null rest
  | None :: rest => not_null rest
  end.

(** timedelta(days=x), in microseconds: at most 999999999 days either
    way. *)
Definition timedelta_days (x : Z) : result Z :=
  if Z.abs x <=? 999999999 then Ok (x * 86400000000)
  else Raise OverflowError.

(** [date - delta] is a date of the years 1 to 9999, or an error. *)
Definition datetime_sub (date : datetime) (delta : Z) : result datetime :=
  let t := date - delta in
  if (datetime_min <=? t) && (t <=? datetime_max) then Ok t
  else Raise OverflowError.

(** ** The session: pending objects and commit *)

(** The key SQLite gives a row inserted without one: one more than the
    largest key of the table. *)
Definition next_id (ids : list Z) : Z := 1 + fold_right Z.max 0 ids.

(** An object that was added to the session waits for its primary key. *)
Definition insert_customer (c : Z -> Customer.t) (d : Database)
  : result Database :=
  let row := c (next_id (map Customer.id (customers d))) in
  if existsb (fun c' => String.eqb (Customer.email c') (Customer.email row))
       (customers d)
  then Raise IntegrityError
  else Ok (mkDatabase (customers d ++ [row]) (orders d) (products d)
             (order_product d)).

Definition insert_order (o : Z -> Order.t) (d : Database) : result Database :=
  let row := o (next_id (map Order.id (orders d))) in
  Ok (mkDatabase (customers d) (orders d ++ [row]) (products d)
        (order_product d)).

Definition insert_product (p : Z -> Product.t) (d : Database)
  : result Database :=
  let row := p (next_id (map Product.id (products d))) in
  if existsb (fun p' => String.eqb (Product.name p') (Product.name row))
       (products d)
  then Raise IntegrityError
  else Ok (mkDatabase (customers d) (orders d) (products d ++ [row])
             (order_product d)).

Definition insert_order_product (r : OrderProduct.t) (d : Database)
  : result Database :=
  if existsb (fun r' =>
                (OrderProduct.order_id r' =? OrderProduct.order_id r)
                && (OrderProduct.product_id r' =? OrderProduct.product_id r))
       (order_product d)
  then Raise IntegrityError
  else Ok (mkDatabase (customers d) (orders d) (products d)
             (order_product d ++ [r])).

Fixpoint insert_all {A} (ins : A -> Database -> result Database)
  (pending : list A) (d : Database) : result Database :=
  match pending with
  | [] => Ok d
  | x :: rest =>
      match ins x d with
      | Ok d' => insert_all ins rest d'
      | Raise e => Raise e
      end
  end.

(** [db.session.commit()]: the pending objects are inserted in the order in
    which they were added; the first violated constraint raises and nothing
    of the batch is kept. *)
Definition commit {A} (ins : A -> Database -> result Database)
  (pending : list A) : M unit :=
  fun w =>
    match insert_all ins pending (db w) with
    | Ok d => Ok (tt, mkWorld d (rng w) (stdout w))
    | Raise e => Raise e
    end.

(** [order.products]: the products reached through the association table. *)
Definition Order_products (d : Database) (o : Order.t) : list Product.t :=
  map snd
    (join (fun r p => Product.id p =? OrderProduct.product_id r)
       (filter (fun r => OrderProduct.order_id r =? Order.id o)
          (order_product d))
       (products d)).

(** ** The lines of a Python statement *)

(** A physical line is given by its tokens, comments left out. *)
Definition opens (token : string) : bool :=
  existsb (String.eqb token) ["("; "["; "{"]%string.

Definition closes (token : string) : bool :=
  existsb (String.eqb token) [")"; "]"; "}"]%string.

(** The number of open brackets after the tokens. *)
Fixpoint depth_after (depth : Z) (tokens : list string) : Z :=
  match tokens with
  | [] => depth
  | token :: rest =>
      depth_after
        (if opens token then depth + 1
         else if closes token then depth - 1
         else depth)
        rest
  end.

(** The end of a physical line ends the statement unless a bracket is open
    or the line ends with a backslash. *)
Fixpoint logical_lines (current : list string) (depth : Z)
  (lines : list (list string)) : list (list string) :=
  match lines with
  | [] =>
      match current with
      | [] => []
      | _ => [current]
      end
  | line :: rest =>
      let depth' := depth_after depth line in
      if String.eqb (last line EmptyString) "\"
      then logical_lines (current ++ removelast line) depth' rest
      else if 0 <? depth'
      then logical_lines (current ++ line) depth' rest
      else (current ++ line) :: logical_lines [] 0 rest
  end.

(** Tokens with which no statement begins. *)
Definition starts_no_statement (token : string) : bool :=
  existsb (String.eqb token)
    ["."; ","; ":"; ";"; "="; ")"; "]"; "}"; ">"; "<"; "/"; "%"; "|"; "&"]%string.

(** A statement that begins with such a token is a syntax error. *)
Definition refused (lines : list (list string)) : bool :=
  existsb
    (fun line =>
       match line with
       | token :: _ => starts_no_statement token
       | [] => false
       end)
    (logical_lines [] 0 lines).

(** Lines 163 and 164 of the source. *)
Definition line_163 : list string :=
  ["customers"; "="; "db"; "."; "session"; "."; "query"; "("; "Customer";
   ")"; "."; "join"; "("; "Order"; ")"; "."; "join"; "("; "order_product";
   ")"; "."; "join"; "("; "Product"; ")"]%string.

Definition line_164 : list string :=
  ["."; "group_by"; "("; "Customer"; ")"; "."; "having"; "("; "db"; ".";
   "func"; "."; "sum"; "("; "Product"; "."; "price"; ")"; ">"; "amount";
   ")"; "."; "all"; "("; ")"]%string.

Definition lines_163_164 : list (list string) := [line_163; line_164].

(** Lines 144-146, the statement of the revenue query, broken the same way
    but inside the brackets of [print]. *)
Definition lines_144_146 : list (list string) :=
  [["print"; "("; "db"; "."; "session"; "."; "query"; "("; "db"; ".";
    "func"; "."; "sum"; "("; "Product"; "."; "price"; ")"; ")"; "."; "join";
    "("; "order_product"; ")"; "."; "join"; "("; "Order"; ")"];
   ["."; "filter"; "("; "Order"; "."; "order_date"; ">"; "("; "datetime";
    "."; "now"; "("; ")"; "-"; "timedelta"; "("; "days"; "="; "x_days"; ")";
    ")"; ")"; "."; "scalar"; "("; ")"];
   [")"]]%string.

(** ** Python's [random] *)

(** Index selected by [bisect] in the cumulative weights, at most the last
    index. *)
Fixpoint bisect_weights (x : N) (weights : list N) : nat :=
  match weights with
  | [] => O
  | [_] => O
  | w :: rest =>
      if (x <? w)%N then O else S (bisect_weights (x - w) rest)
  end.

Definition remove_nth {A} (j : nat) (l : list A) : list A :=
  firstn j l ++ skipn (S j) l.

(** [seq[0]] *)
Definition subscript0 {A} (seq : list A) : M A :=
  match seq with
  | [] => raise IndexError
  | x :: _ => ret x
  end.

(** The providers of the Faker library: each maps a raw draw to one of its
    possible outputs; [year_start] is the calendar (the first instant of the
    year of a date). *)
Module Faker.
Record t : Type := Build
  { first_name : N -> string;
    last_name : N -> string;
    street_address : N -> string;
    city : N -> string;
    postcode : N -> string;
    email : N -> string;
    color_name : N -> string;
    year_start : datetime -> datetime }.
End Faker.

Section Program.

(** The raw draws of the run, the Faker instance [fake] and the reading of
    the clock. *)
Variable tape : N -> N.
Variable fake : Faker.t.
Variable now : datetime.

Definition raw : M N :=
  fun w => Ok (tape (rng w), mkWorld (db w) (N.succ (rng w)) (stdout w)).

(** random.randint(a, b) *)
Definition random_randint (a b : Z) : M Z :=
  if b <? a then raise ValueError
  else r <- raw ;; ret (a + Z.of_N r mod (b - a + 1)).

(** random.choice(seq) *)
Definition random_choice {A} (seq : list A) : M A :=
  match seq with
  | [] => raise IndexError
  | x :: _ =>
      r <- raw ;;
      ret (nth (N.to_nat (r mod N.of_nat (List.length seq))) seq x)
  end.

(** random.choices(population, weights), one element drawn. *)
Definition random_choices {A} (population : list A) (weights : list N)
  : M (list A) :=
  let total := fold_right N.add 0%N weights in
  if negb (List.length population =? List.length weights)%nat
  then raise ValueError
  else if (total =? 0)%N then raise ValueError
  else
    r <- raw ;;
    match nth_error population (bisect_weights (r mod total) weights) with
    | Some a => ret [a]
    | None => raise IndexError
    end.

(** random.sample(population, k): k draws without replacement, each among
    the elements still in the pool. *)
Fixpoint sample_pool {A} (pool : list A) (k : nat) : M (list A) :=
  match k with
  | O => ret []
  | S k' =>
      match pool with
      | [] => raise ValueError
      | x :: _ =>
          r <- raw ;;
          let j := N.to_nat (r mod N.of_nat (List.length pool)) in
          rest <- sample_pool (remove_nth j pool) k' ;;
          ret (nth j pool x :: rest)
      end
  end.

Definition random_sample {A} (population : list A) (k : Z) : M (list A) :=
  if (k <? 0) || (Z.of_nat (List.length population) <? k)
  then raise ValueError
  else sample_pool population (Z.to_nat k).

(** ** Faker *)

Definition provider (f : Faker.t -> N -> string) : M string :=
  r <- raw ;; ret (f fake r).

(** random.uniform(a, b) on two timestamps in whole seconds, read to the
    microsecond: any instant from [a] to [b], both included. *)
Definition random_uniform (a b : Z) : M datetime :=
  r <- raw ;; ret (of_seconds a + Z.of_N r mod (of_seconds (b - a) + 1)).

(** fake.date_time_between(start_date=d), the end being now. Faker takes
    both dates as timestamps in whole seconds; when they are no more than
    a second apart (or the start is after the end) it adds
    [random.random()] to the start, which in doubles reaches the next
    second; otherwise it draws uniformly between the two. *)
Definition fake_date_time_between (start_date : datetime) : M datetime :=
  let start := whole_seconds start_date in
  let stop := whole_seconds now in
  if stop - start <=? 1 then random_uniform start (start + 1)
  else random_uniform start stop.

(** fake.date_time_this_year(): a date drawn uniformly between the
    timestamps of the start of the year and of now; an empty range is
    refused. *)
Definition fake_date_time_this_year : M datetime :=
  let start := whole_seconds (Faker.year_start fake now) in
  let stop := whole_seconds now in
  if stop <? start then raise ValueError else random_uniform start stop.

(** ** The data generator (lines 49-118) *)

Definition new_customer : M (Z -> Customer.t) :=
  first_name <- provider Faker.first_name ;;
  last_name <- provider Faker.last_name ;;
  address <- provider Faker.street_address ;;
  city <- provider Faker.city ;;
  postcode <- provider Faker.postcode ;;
  email <- provider Faker.email ;;
  ret (fun id =>
         Customer.Build id first_name last_name address city postcode email).

Definition add_customers : M unit :=
  pending <- replicateM 100 new_customer ;;
  commit insert_customer pending.

Definition new_order (customers : list Customer.t) : M (Z -> Order.t) :=
  customer <- random_choice customers ;;
  ordered_date <- fake_date_time_this_year ;;
  shipped_candidate <- fake_date_time_between ordered_date ;;
  shipped_date <-
    (l <- random_choices [None; Some shipped_candidate] [10; 90]%N ;;
     subscript0 l) ;;
  delivered_date <-
    match shipped_date with
    | Some shipped =>
        delivered_candidate <- fake_date_time_between shipped ;;
        l <- random_choices [None; Some delivered_candidate] [50; 50]%N ;;
        subscript0 l
    | None => ret None
    end ;;
  coupon_code <-
    (l <- random_choices
            [None; Some "50OFF"; Some "FREESHIPPING"; Some "BUYONEGETONE"]%string
            [80; 5; 5; 5]%N ;;
     subscript0 l) ;;
  ret (fun id =>
         Order.Build id ordered_date shipped_date delivered_date coupon_code
           (Customer.id customer)).

Definition add_orders : M unit :=
  customers <- query customers ;;
  pending <- replicateM 1000 (new_order customers) ;;
  commit insert_order pending.

Definition new_product : M (Z -> Product.t) :=
  name <- provider Faker.color_name ;;
  price <- random_randint 10 100 ;;
  ret (fun id => Product.Build id name price).

Definition add_products : M unit :=
  pending <- replicateM 10 new_product ;;
  commit insert_product pending.

(** One turn of the loop of [add_order_products]. On flush the collection
    [order.products] yields one association row for each product that was
    appended and was not in the collection before. *)
Definition link_order (products : list Product.t) (order : Order.t)
  : M (list OrderProduct.t) :=
  k <- random_randint 1 3 ;;
  purchased_products <- random_sample products k ;;
  before <- query (fun d => Order_products d order) ;;
  let appended :=
    filter (fun p =>
              negb (existsb (fun q => Product.id q =? Product.id p) before))
      purchased_products in
  ret (map (fun p => OrderProduct.Build (Order.id order) (Product.id p))
         appended).

Definition add_order_products : M unit :=
  orders <- query orders ;;
  products <- query products ;;
  pending <- mapM (link_order products) orders ;;
  commit insert_order_product (List.concat pending).

(** db.create_all(): the four tables of the model are there already. *)
Definition create_all : M unit := ret tt.

Definition create_random_data : M unit :=
  create_all ;;
  add_customers ;;
  add_orders ;;
  add_products ;;
  add_order_products.

(** ** The queries (lines 120-166) *)

(** [Order.query.filter_by(customer_id=customer_id).all()]: the identifier
    is bound to the statement, which takes an integer of 64 bits. *)
Definition orders_by_query (customer_id : Z) (d : Database)
  : result (list Order.t) :=
  if in_int64 customer_id
  then Ok (filter (fun o => Order.customer_id o =? customer_id) (orders d))
  else Raise OverflowError.

Definition get_orders_by (customer_id : Z) : M value :=
  print (VStr "Get Orders by Customer") ;;
  customer_orders <- execute (orders_by_query customer_id) ;;
  for_each customer_orders
    (fun order => print (VDateTime (Order.order_date order))) ;;
  ret VNone.

Definition pending_orders_query (d : Database) : list Order.t :=
  order_by_desc Order.order_date
    (filter (fun o => is_none (Order.shipped_date o)) (orders d)).

Definition get_pending_orders : M value :=
  print (VStr "Pending Orders") ;;
  pending_orders <- query pending_orders_query ;;
  for_each pending_orders
    (fun order => print (VDateTime (Order.order_date order))) ;;
  ret VNone.

Definition customer_count_query (d : Database) : Z :=
  Z.of_nat (List.length (customers d)).

Definition how_many_customers : M value :=
  print (VStr "How many customers?") ;;
  n <- query customer_count_query ;;
  print (VInt n) ;;
  ret VNone.

Definition orders_with_code_query (d : Database) : list Order.t :=
  filter (fun o => is_true3 (sql_ne (Order.coupon_code o) "FREESHIPPING"))
    (filter (fun o => negb (is_none (Order.coupon_code o))) (orders d)).

Definition orders_with_code : M value :=
  print (VStr "Orders with coupon code") ;;
  orders <- query orders_with_code_query ;;
  for_each orders
    (fun order => print (of_option VStr (Order.coupon_code order))) ;;
  ret VNone.

(** datetime.now() - timedelta(days=x_days) *)
Definition revenue_cutoff (x_days : Z) : result datetime :=
  match timedelta_days x_days with
  | Ok delta => datetime_sub now delta
  | Raise e => Raise e
  end.

(** product JOIN order_product JOIN order, filtered on the order date. *)
Definition revenue_rows (cutoff : datetime) (d : Database)
  : list (Product.t * OrderProduct.t * Order.t) :=
  filter
    (fun row => Order.order_date (snd row) >? cutoff)
    (join (fun pr o => Order.id o =? OrderProduct.order_id (snd pr))
       (join (fun p r => Product.id p =? OrderProduct.product_id r)
          (products d) (order_product d))
       (orders d)).

Definition revenue_query (x_days : Z) (d : Database) : result (option Z) :=
  match revenue_cutoff x_days with
  | Ok cutoff =>
      sql_sum (map (fun row => Product.price (fst (fst row)))
                 (revenue_rows cutoff d))
  | Raise e => Raise e
  end.

Definition revenue_in_last_x_days (x_days : Z) : M value :=
  print (VStr "Revenue past x days") ;;
  revenue <- execute (revenue_query x_days) ;;
  print (of_option VInt revenue) ;;
  ret VNone.

(** The fulfilment time of a row, NULL when one of its terms is NULL. *)
Definition fulfillment_seconds (o : Order.t) : option Z :=
  match Order.shipped_date o with
  | Some shipped =>
      match strftime_s shipped, strftime_s (Order.order_date o) with
      | Some s, Some o => Some (s - o)
      | _, _ => None
      end
  | None => None
  end.

Definition average_fulfillment_time_query (d : Database) : option string :=
  match
    sql_avg
      (not_null
         (map fulfillment_seconds
            (filter (fun o => negb (is_none (Order.shipped_date o)))
               (orders d))))
  with
  | Some average => sqlite_time_unixepoch average
  | None => None
  end.


(** Lines 162-166. Line 163 is a complete statement and line 164 begins
    with [.group_by]: the interpreter refuses the text (see
    [lines_163_164]) and nothing of the function runs. The model raises
    the error where the function is called. *)
Definition get_customers_who_have_purchased_x_dollars (amount : Z)
  : M value :=
  raise SyntaxError.

End Program.

(** ** Vocabulary of the statements *)


(** The world [w] after the objects [l] were printed. *)
Definition printed (w : World) (l : list value) : World :=
  mkWorld (db w) (rng w) (stdout w ++ l).

Definition find_order (d : Database) (order_id : Z) : option Order.t :=
  find (fun o => Order.id o =? order_id) (orders d).

Definition find_product (d : Database) (product_id : Z) : option Product.t :=
  find (fun p => Product.id p =? product_id) (products d).

(** The price an association row brings to the revenue after [cutoff]: the
    price of its product when the date of its order is after [cutoff]. *)
Definition row_revenue (cutoff : datetime) (d : Database)
  (r : OrderProduct.t) : option Z :=
  match find_order d (OrderProduct.order_id r),
        find_product d (OrderProduct.product_id r) with
  | Some o, Some p =>
      if Order.order_date o >? cutoff then Some (Product.price p) else None
  | _, _ => None
  end.

(** The prices that count for the revenue after [cutoff]: one for each
    association row whose order is dated after [cutoff]. *)
Definition revenue_prices (cutoff : datetime) (d : Database) : list Z :=
  not_null (map (row_revenue cutoff d) (order_product d)).

(** The sum of a column, NULL over no row. *)
Definition sum_or_null (l : list Z) : option Z :=
  match l with
  | [] => None
  | _ => Some (zsum (fun z => z) l)
  end.

(** The revenue as the specification words it: the sum, over the association
    rows whose order is dated after [cutoff], of the price of the product of
    the row (NULL over no row). *)
Definition revenue_after (cutoff : datetime) (d : Database) : option Z :=
  sum_or_null (revenue_prices cutoff d).

(** [x_days] days before [now], in microseconds. *)
Definition days_before (now : datetime) (x_days : Z) : datetime :=
  now - x_days * 86400000000.

(** [now - x_days] days is a date that Python can hold. *)
Definition cutoff_in_range (now : datetime) (x_days : Z) : Prop :=
  Z.abs x_days <= 999999999
  /\ datetime_min <= days_before now x_days <= datetime_max.

(** [a] comes before [b] in descending order of [key]. *)
Definition desc {A} (key : A -> Z) (a b : A) : Prop := key a >= key b.

(** Started on the database [d], the computation [m], when it ends
    normally, has left the database alone and its result satisfies [P]. *)
Definition reads {A} (d : Database) (m : M A) (P : A -> Prop) : Prop :=
  forall w a w', db w = d -> m w = Ok (a, w') -> db w' = d /\ P a.

(** Started on the database [d], the computation [m] ends normally, has
    left the database alone and its result satisfies [P]. *)
Definition completes {A} (d : Database) (m : M A) (P : A -> Prop) : Prop :=
  forall w,
    db w = d -> exists a w', m w = Ok (a, w') /\ db w' = d /\ P a.

(** What one turn of the loop of [add_order_products] yields for the order
    [o]: rows for products chosen at one to three different places of the
    product table, less those the order holds already. *)
Definition linked (d : Database) (o : Order.t) (rows : list OrderProduct.t)
  : Prop :=
  exists chosen rest,
    (1 <= List.length chosen <= 3)%nat
    /\ Permutation (products d) (chosen ++ rest)
    /\ rows
       = map (fun p => OrderProduct.Build (Order.id o) (Product.id p))
           (filter
              (fun p =>
                 negb (existsb (fun q => Product.id q =? Product.id p)
                         (Order_products d o)))
              chosen).

(** A pending object takes the primary key it is given. *)
Definition keyed {A} (key : A -> Z) (pending : Z -> A) : Prop :=
  forall id, key (pending id) = id.

(** The dates of a generated order are in order. *)
Definition dates_in_order (o : Order.t) : Prop :=
  (forall delivered, Order.delivered_date o = Some delivered ->
     exists shipped,
       Order.shipped_date o = Some shipped /\ delivered >= shipped)
  /\ (forall shipped, Order.shipped_date o = Some shipped ->
        shipped >= Order.order_date o).

(** The dates of a generated order are in order when the earlier one is cut
    to its whole second. *)
Definition dates_in_order_to_the_second (o : Order.t) : Prop :=
  (forall delivered, Order.delivered_date o = Some delivered ->
     exists shipped,
       Order.shipped_date o = Some shipped
       /\ delivered >= of_seconds (whole_seconds shipped))
  /\ (forall shipped, Order.shipped_date o = Some shipped ->
        shipped >= of_seconds (whole_seconds (Order.order_date o))).

(** The shipped orders, in storage order. *)
Definition shipped_orders (d : Database) : list Order.t :=
  filter (fun o => negb (is_none (Order.shipped_date o))) (orders d).



(** ** Worlds used in the examples *)

Definition alice : Customer.t :=
  Customer.Build 1 "Alice" "Martin" "1 Main Street" "Leeds" "LS1 1AA"
    "alice@example.org".

Definition bob : Customer.t :=
  Customer.Build 2 "Bob" "Stone" "2 High Street" "York" "YO1 7HH"
    "bob@example.org".

Definition world_of (d : Database) : World := mkWorld d 0%N [].

Definition no_order (id : Z) (date : datetime) (customer_id : Z) : Order.t :=
  Order.Build id date None None None customer_id.

(** One customer, one order placed at [date], two products priced [p1] and
    [p2], both attached to the order. *)
Definition one_order_db (date : datetime) (p1 p2 : Z) : Database :=
  mkDatabase
    [alice; bob]
    [no_order 1 date 1]
    [Product.Build 1 "Red" p1; Product.Build 2 "Blue" p2]
    [OrderProduct.Build 1 1; OrderProduct.Build 1 2].

(** A customer who never ordered. *)
Definition lonely_db : Database := mkDatabase [alice] [] [] [].

(** Noon of some day, as a reading of the clock. *)
Definition noon : datetime := of_seconds 1700049600.




(** ** A Faker and a tape for the examples *)

Fixpoint binary (p : positive) : string :=
  match p with
  | xH => "1"
  | xO q => String "0" (binary q)
  | xI q => String "1" (binary q)
  end.

Definition label (prefix : string) (n : N) : string :=
  (prefix ++ match n with N0 => "0" | Npos p => binary p end)%string.

(** Providers that name their output after the draw; the year starts a
    hundred days before the date. *)
Definition demo_fake : Faker.t :=
  Faker.Build (label "First") (label "Last") (label "Street ")
    (label "City") (label "Post")
    (fun n => (label "user" n ++ "@example.org")%string)
    (label "Colour") (fun t => t - of_seconds 8640000).

(** The tape whose n-th draw is n. *)
Definition counting_tape : N -> N := fun n => n.

(** The world in which a run ended, [w] when it raised. *)
Definition world_after {A} (run : result (A * World)) (w : World) : World :=
  match run with
  | Ok (_, w') => w'
  | Raise _ => w
  end.

(** The world after [add_orders] ran on the database of one customer. *)
Definition after_add_orders : World :=
  world_after (add_orders counting_tape demo_fake noon (world_of lonely_db))
    (world_of lonely_db).



(** The world after the whole generator ran on the empty database. *)
Definition after_create_random_data : World :=
  world_after
    (create_random_data counting_tape demo_fake noon (world_of empty_db))
    (world_of empty_db).

(** An order that holds three of five products. *)
Definition linked_db : Database :=
  mkDatabase
    [alice]
    [no_order 1 noon 1]
    [Product.Build 1 "Red" 10; Product.Build 2 "Blue" 20;
     Product.Build 3 "Green" 30; Product.Build 4 "Black" 40;
     Product.Build 5 "White" 50]
    [OrderProduct.Build 1 1; OrderProduct.Build 1 2; OrderProduct.Build 1 3].

(** The draws 1, 3, 3: two products, the fourth of five, then the fourth of
    the four that are left. *)
Definition relinking_tape : N -> N :=
  fun n => if (n =? 0)%N then 1%N else 3%N.

Definition after_relinking : World :=
  world_after (add_order_products relinking_tape (world_of linked_db))
    (world_of linked_db).

(** Two orders and three products, not linked yet. *)
Definition unlinked_db : Database :=
  mkDatabase
    [alice]
    [no_order 1 noon 1; no_order 2 (noon + of_seconds 60) 1]
    [Product.Build 1 "Red" 10; Product.Build 2 "Blue" 20;
     Product.Build 3 "Green" 30]
    [].

Definition after_add_order_products : World :=
  world_after (add_order_products counting_tape (world_of unlinked_db))
    (world_of unlinked_db).

(** ** Vocabulary of the further properties *)

(** The coupon code of an order is absent or one of the three codes of
    [add_orders]. *)
Definition known_coupon (o : Order.t) : Prop :=
  Order.coupon_code o = None
  \/ Order.coupon_code o = Some "50OFF"%string
  \/ Order.coupon_code o = Some "FREESHIPPING"%string
  \/ Order.coupon_code o = Some "BUYONEGETONE"%string.

(** The order date lies between the whole seconds of [start] and of [now];
    the shipped date is no later than the second after the one of [now],
    the delivered date no later than the second after that. *)
Definition dates_within (start now : datetime) (o : Order.t) : Prop :=
  of_seconds (whole_seconds start) <= Order.order_date o
  /\ Order.order_date o <= of_seconds (whole_seconds now)
  /\ (forall shipped,
        Order.shipped_date o = Some shipped ->
        of_seconds (whole_seconds start) <= shipped
        /\ shipped <= of_seconds (whole_seconds now + 1))
  /\ (forall delivered,
        Order.delivered_date o = Some delivered ->
        of_seconds (whole_seconds start) <= delivered
        /\ delivered <= of_seconds (whole_seconds now + 2)).

(** The order belongs to one of the customers [cs]. *)
Definition of_customers (cs : list Customer.t) (o : Order.t) : Prop :=
  In (Order.customer_id o) (map Customer.id cs).

(** The association row names an order and a product of the database. *)
Definition refers (d : Database) (r : OrderProduct.t) : Prop :=
  In (OrderProduct.order_id r) (map Order.id (orders d))
  /\ In (OrderProduct.product_id r) (map Product.id (products d)).

(** The worlds after [add_customers] and after [add_products] ran on the
    empty database. *)
Definition after_add_customers : World :=
  world_after (add_customers counting_tape demo_fake (world_of empty_db))
    (world_of empty_db).

Definition after_add_products : World :=
  world_after (add_products counting_tape demo_fake (world_of empty_db))
    (world_of empty_db).

(** The customer that [new_customer] makes from the six draws at the
    positions [pos], [pos + 1], ... of the tape, awaiting its key. *)
Definition customer_drawn (tape : N -> N) (fake : Faker.t) (pos : N)
  (id : Z) : Customer.t :=
  Customer.Build id
    (Faker.first_name fake (tape pos))
    (Faker.last_name fake (tape (N.succ pos)))
    (Faker.street_address fake (tape (N.succ (N.succ pos))))
    (Faker.city fake (tape (N.succ (N.succ (N.succ pos)))))
    (Faker.postcode fake (tape (N.succ (N.succ (N.succ (N.succ pos))))))
    (Faker.email fake
       (tape (N.succ (N.succ (N.succ (N.succ (N.succ pos))))))).

(** The hundred e-mail addresses that [add_customers] draws when started in
    [w]: the sixth draw of each customer. *)
Definition drawn_emails (tape : N -> N) (fake : Faker.t) (w : World)
  : list string :=
  map (fun i => Faker.email fake (tape (rng w + 6 * N.of_nat i + 5)%N))
    (seq 0 100).

(** No string occurs twice. *)
Fixpoint all_distinct (l : list string) : bool :=
  match l with
  | [] => true
  | x :: rest => negb (existsb (String.eqb x) rest) && all_distinct rest
  end.

(** The tape whose draws are all 0. *)
Definition zero_tape : N -> N := fun _ => 0%N.

(* ================================================================== *)
(** * Part II. Properties                                              *)
(* ================================================================== *)

(** ** The monad *)

Lemma bind_ok {A B} (m : M A) (k : A -> M B) w b w' :
  bind m k w = Ok (b, w') ->
  exists a w1, m w = Ok (a, w1) /\ k a w1 = Ok (b, w').
Proof.
  unfold bind. destruct (m w) as [[a w1]|e]; [|discriminate].
  intros H. exists a, w1. split; [reflexivity|exact H].
Qed.

Lemma query_ok {A} (q : Database -> A) a w w' :
  query q w = Ok (a, w') -> a = q (db w) /\ w' = w.
Proof. unfold query. intros H. injection H as <- <-. split; reflexivity. Qed.

Lemma printed_printed w l1 l2 :
  printed (printed w l1) l2 = printed w (l1 ++ l2).
Proof. unfold printed. simpl. rewrite <- app_assoc. reflexivity. Qed.

Lemma print_run v w : print v w = Ok (tt, printed w [v]).
Proof. reflexivity. Qed.

Lemma for_each_print {A} (f : A -> value) (l : list A) w :
  for_each l (fun x => print (f x)) w = Ok (tt, printed w (map f l)).
Proof.
  revert w. induction l as [|x l IH]; intros w; simpl.
  - unfold ret, printed. rewrite app_nil_r. destruct w; reflexivity.
  - unfold bind. rewrite print_run, IH, printed_printed. reflexivity.
Qed.

(** A query function: a header line, the SELECT, one line for each row. *)
Lemma listing_run {A} (header : string) (q : Database -> list A)
  (f : A -> value) w :
  (print (VStr header) ;;
   rows <- query q ;;
   for_each rows (fun x => print (f x)) ;;
   ret VNone) w
  = Ok (VNone, printed w (VStr header :: map f (q (db w)))).
Proof.
  unfold bind at 1. rewrite print_run.
  unfold bind at 1. unfold query at 1.
  unfold bind. rewrite for_each_print, printed_printed. reflexivity.
Qed.

(** A query function that prints one scalar. *)
Lemma scalar_run {A} (header : string) (q : Database -> A)
  (f : A -> value) w :
  (print (VStr header) ;;
   x <- query q ;;
   print (f x) ;;
   ret VNone) w
  = Ok (VNone, printed w [VStr header; f (q (db w))]).
Proof.
  unfold bind at 1. rewrite print_run.
  unfold bind at 1. unfold query at 1.
  unfold bind. rewrite print_run, printed_printed. reflexivity.
Qed.

(** ** ORDER BY *)

Section OrderBy.
Context {A : Type} (key : A -> Z).

Lemma insert_desc_perm x l : Permutation (insert_desc key x l) (x :: l).
Proof.
  induction l as [|y l IH]; simpl.
  - apply Permutation_refl.
  - destruct (key y <? key x).
    + apply Permutation_refl.
    + eapply perm_trans; [apply perm_skip, IH | apply perm_swap].
Qed.

Lemma order_by_desc_perm l : Permutation (order_by_desc key l) l.
Proof.
  induction l as [|x l IH]; simpl.
  - constructor.
  - eapply perm_trans; [apply insert_desc_perm | apply perm_skip, IH].
Qed.

Lemma insert_desc_hd x y l :
  (desc key) y x -> HdRel (desc key) y l -> HdRel (desc key) y (insert_desc key x l).
Proof.
  intros Hyx Hl. destruct l as [|z l]; simpl.
  - constructor. exact Hyx.
  - destruct (key z <? key x); constructor.
    + exact Hyx.
    + inversion Hl; assumption.
Qed.

Lemma insert_desc_sorted x l :
  Sorted (desc key) l -> Sorted (desc key) (insert_desc key x l).
Proof.
  induction 1 as [|y l Hs IH Hhd]; simpl.
  - repeat constructor.
  - destruct (key y <? key x) eqn:E.
    + constructor; [constructor; assumption|].
      constructor. unfold desc. apply Z.ltb_lt in E. lia.
    + constructor; [exact IH|].
      apply insert_desc_hd; [|exact Hhd].
      unfold desc. apply Z.ltb_ge in E. lia.
Qed.

Lemma order_by_desc_sorted l : Sorted (desc key) (order_by_desc key l).
Proof.
  induction l as [|x l IH]; simpl.
  - constructor.
  - apply insert_desc_sorted, IH.
Qed.

Lemma sorted_adjacent l :
  Sorted (desc key) l ->
  forall i a b,
    nth_error l i = Some a -> nth_error l (S i) = Some b -> (desc key) a b.
Proof.
  induction 1 as [|y l Hs IH Hhd]; intros i a b Ha Hb.
  - destruct i; discriminate.
  - destruct i as [|i]; simpl in Ha, Hb.
    + injection Ha as ->. destruct l as [|z l]; [discriminate|].
      injection Hb as ->. inversion Hhd; assumption.
    + eapply IH; eassumption.
Qed.
End OrderBy.

(** ** Pending orders *)

Lemma is_none_true {A} (o : option A) : is_none o = true <-> o = None.
Proof. destruct o; simpl; split; congruence. Qed.

(** C4. [get_pending_orders] prints, most recent first, the order dates of
    exactly the orders whose shipped date is absent: its result set is a
    rearrangement of those orders, an order is in it exactly when it is an
    order without shipped date, and of two adjacent results the first has
    the later or equal order date. *)
Theorem get_pending_orders_spec (w : World) :
  let result := pending_orders_query (db w) in
  get_pending_orders w
  = Ok (VNone,
        printed w
          (VStr "Pending Orders"
             :: map (fun o => VDateTime (Order.order_date o)) result))
  /\ Permutation result
       (filter (fun o => is_none (Order.shipped_date o)) (orders (db w)))
  /\ (forall o,
        In o result <-> In o (orders (db w)) /\ Order.shipped_date o = None)
  /\ (forall i a b,
        nth_error result i = Some a -> nth_error result (S i) = Some b ->
        Order.order_date a >= Order.order_date b).
Proof.
  intros result.
  assert (Hperm : Permutation result
            (filter (fun o => is_none (Order.shipped_date o))
               (orders (db w)))) by apply order_by_desc_perm.
  split; [apply listing_run|].
  split; [exact Hperm|].
  split.
  - intros o. split.
    + intros Hin. apply (Permutation_in _ Hperm), filter_In in Hin.
      split; [|apply is_none_true]; tauto.
    + intros [Hin Hnone].
      apply (Permutation_in _ (Permutation_sym Hperm)), filter_In.
      split; [exact Hin | apply is_none_true; exact Hnone].
  - intros i a b Ha Hb.
    exact (sorted_adjacent Order.order_date result
             (order_by_desc_sorted _ _) i a b Ha Hb).
Qed.

(** ** Orders with a coupon code *)

Lemma coupon_kept (c : option string) :
  negb (is_none c) && is_true3 (sql_ne c "FREESHIPPING") = true
  <-> exists code, c = Some code /\ code <> "FREESHIPPING"%string.
Proof.
  destruct c as [code|]; simpl.
  - destruct (String.eqb_spec code "FREESHIPPING") as [->|Hne]; simpl.
    + split; [discriminate|]. intros (c & [= <-] & Hc). congruence.
    + split; [|reflexivity]. intros _. exists code. split; congruence.
  - split; [discriminate|]. intros (c & [=] & _).
Qed.

(** C10. [orders_with_code] prints the coupon codes of its result set, and
    an order is in the result set exactly when it is an order whose coupon
    code is present and is not "FREESHIPPING": none with an absent code or
    with the code "FREESHIPPING" is returned, every other one is. *)
Theorem orders_with_code_spec (w : World) :
  let result := orders_with_code_query (db w) in
  orders_with_code w
  = Ok (VNone,
        printed w
          (VStr "Orders with coupon code"
             :: map (fun o => of_option VStr (Order.coupon_code o)) result))
  /\ (forall o,
        In o result <->
        In o (orders (db w))
        /\ exists code,
             Order.coupon_code o = Some code
             /\ code <> "FREESHIPPING"%string)
  /\ (forall o, In o result -> Order.coupon_code o <> None)
  /\ (forall o,
        In o result -> Order.coupon_code o <> Some "FREESHIPPING"%string).
Proof.
  intros result.
  assert (Hin : forall o,
             In o result <->
             In o (orders (db w))
             /\ exists code,
                  Order.coupon_code o = Some code
                  /\ code <> "FREESHIPPING"%string).
  { intros o. unfold result, orders_with_code_query.
    rewrite !filter_In, <- coupon_kept, andb_true_iff. tauto. }
  split; [apply listing_run|].
  split; [exact Hin|].
  split; intros o Ho; apply Hin in Ho; destruct Ho as (_ & code & Hc & Hne);
    rewrite Hc; congruence.
Qed.

(** ** Sums over selected rows *)

Lemma zsum_app {A : Type} (f : A -> Z) l1 l2 :
  zsum f (l1 ++ l2) = zsum f l1 + zsum f l2.
Proof.
  induction l1 as [|a l1 IH]; simpl; [reflexivity | lia].
Qed.

Lemma zsum_ext {A : Type} (f g : A -> Z) l :
  (forall a, In a l -> f a = g a) -> zsum f l = zsum g l.
Proof.
  induction l as [|a l IH]; intros H; simpl; [reflexivity|].
  rewrite (H a (or_introl eq_refl)), IH; [reflexivity|].
  intros b Hb. apply H. right. exact Hb.
Qed.

Lemma zsum_zero {A : Type} (l : list A) : zsum (fun _ => 0) l = 0.
Proof. induction l; simpl; lia. Qed.

Lemma zsum_one {A : Type} (l : list A) : zsum (fun _ => 1) l = Z.of_nat (List.length l).
Proof.
  induction l as [|a l IH]; [reflexivity|].
  cbn [zsum List.length]. rewrite Nat2Z.inj_succ, IH. lia.
Qed.

Lemma zsum_plus {A : Type} (f g : A -> Z) l :
  zsum (fun a => f a + g a) l = zsum f l + zsum g l.
Proof. induction l; simpl; lia. Qed.

Lemma zsum_map {A B : Type} (g : B -> Z) (h : A -> B) l :
  zsum g (map h l) = zsum (fun a => g (h a)) l.
Proof. induction l as [|a l IH]; simpl; [reflexivity | now rewrite IH]. Qed.

Lemma zsum_filter {A : Type} (g : A -> Z) (p : A -> bool) l :
  zsum g (filter p l) = zsum (fun a => if p a then g a else 0) l.
Proof.
  induction l as [|a l IH]; simpl; [reflexivity|].
  destruct (p a); simpl; rewrite IH; reflexivity.
Qed.

Lemma zsum_flat_map {A B : Type} (g : B -> Z) (h : A -> list B) l :
  zsum g (flat_map h l) = zsum (fun a => zsum g (h a)) l.
Proof.
  induction l as [|a l IH]; [reflexivity|].
  cbn [flat_map zsum]. now rewrite zsum_app, IH.
Qed.

Lemma zsum_swap {A B : Type} (f : A -> B -> Z) l r :
  zsum (fun a => zsum (f a) r) l = zsum (fun b => zsum (fun a => f a b) l) r.
Proof.
  induction l as [|a l IH]; simpl.
  - now rewrite zsum_zero.
  - now rewrite IH, zsum_plus.
Qed.

Lemma zsum_join {A B : Type} (g : A * B -> Z) on l r :
  zsum g (join on l r)
  = zsum (fun a => zsum (fun b => if on a b then g (a, b) else 0) r) l.
Proof.
  unfold join. rewrite zsum_flat_map. apply zsum_ext. intros a _.
  now rewrite zsum_map, zsum_filter.
Qed.

Lemma zsum_not_null {A : Type} (g : A -> Z) (l : list (option A)) :
  zsum g (not_null l)
  = zsum (fun o => match o with Some a => g a | None => 0 end) l.
Proof.
  induction l as [|[a|] l IH]; simpl; [reflexivity| |]; now rewrite IH.
Qed.

(** Under a key without duplicates the rows with a given key are the row
    found by a lookup. *)
Lemma zsum_lookup {A : Type} (key : A -> Z) (g : A -> Z) k l :
  NoDup (map key l) ->
  zsum (fun a => if key a =? k then g a else 0) l
  = match find (fun a => key a =? k) l with
    | Some a => g a
    | None => 0
    end.
Proof.
  induction l as [|a l IH]; simpl; intros Hnd; [reflexivity|].
  inversion Hnd as [|? ? Hnotin Hnd']; subst.
  destruct (Z.eqb_spec (key a) k) as [Hk|Hk].
  - rewrite (zsum_ext _ (fun _ => 0)), zsum_zero; [lia|].
    intros b Hb. destruct (Z.eqb_spec (key b) k) as [Hb'|]; [|reflexivity].
    exfalso. apply Hnotin. rewrite Hk, <- Hb'. now apply in_map.
  - rewrite IH by assumption. lia.
Qed.

Lemma in_join {A B : Type} on (l : list A) (r : list B) a b :
  In (a, b) (join on l r) <-> In a l /\ In b r /\ on a b = true.
Proof.
  unfold join. rewrite in_flat_map. split.
  - intros (a' & Ha & Hin). apply in_map_iff in Hin.
    destruct Hin as (b' & [= <- <-] & Hb). apply filter_In in Hb. tauto.
  - intros (Ha & Hb & Hon). exists a. split; [exact Ha|].
    apply in_map, filter_In. tauto.
Qed.

Lemma filter_none {A} (p : A -> bool) l :
  (forall a, In a l -> p a = false) -> filter p l = [].
Proof.
  induction l as [|a l IH]; intros H; simpl; [reflexivity|].
  rewrite (H a (or_introl eq_refl)). apply IH.
  intros b Hb. apply H. now right.
Qed.

Lemma zsum_abs_nonneg (l : list Z) : 0 <= zsum Z.abs l.
Proof. induction l as [|z l IH]; cbn [zsum]; lia. Qed.

Lemma sum_or_null_eq (l1 l2 : list Z) :
  zsum (fun z => z) l1 = zsum (fun z => z) l2 ->
  List.length l1 = List.length l2 ->
  sum_or_null l1 = sum_or_null l2.
Proof.
  destruct l1, l2; simpl; try discriminate; [reflexivity|].
  intros -> _. reflexivity.
Qed.

(** A total that stays within 63 bits in absolute value never overflows. *)
Lemma sum_from_fits (l : list Z) :
  forall total,
    Z.abs total + zsum Z.abs l <= 9223372036854775807 ->
    sum_from total l = Ok (total + zsum (fun z => z) l).
Proof.
  induction l as [|z l IH]; intros total H; cbn [sum_from zsum] in *.
  - f_equal. lia.
  - assert (Hfit : in_int64 (total + z) = true).
    { unfold in_int64. apply andb_true_intro.
      pose proof (zsum_abs_nonneg l).
      split; [apply Z.leb_le | apply Z.leb_le]; lia. }
    rewrite Hfit, IH; [f_equal; lia|].
    pose proof (zsum_abs_nonneg l). lia.
Qed.

Lemma sql_sum_fits (l : list Z) :
  zsum Z.abs l <= 9223372036854775807 -> sql_sum l = Ok (sum_or_null l).
Proof.
  intros H. destruct l as [|z l]; [reflexivity|].
  unfold sql_sum, sum_or_null. rewrite sum_from_fits; [reflexivity|].
  cbn [Z.abs]. exact H.
Qed.

(** ** Revenue *)

Lemma revenue_cutoff_ok (now : datetime) (x_days : Z) :
  cutoff_in_range now x_days ->
  revenue_cutoff now x_days = Ok (days_before now x_days).
Proof.
  intros [Hdays Hdate]. unfold revenue_cutoff, timedelta_days.
  replace (Z.abs x_days <=? 999999999) with true
    by (symmetry; apply Z.leb_le; exact Hdays).
  unfold datetime_sub. fold (days_before now x_days).
  replace (datetime_min <=? days_before now x_days) with true
    by (symmetry; apply Z.leb_le; apply Hdate).
  replace (days_before now x_days <=? datetime_max) with true
    by (symmetry; apply Z.leb_le; apply Hdate).
  reflexivity.
Qed.

(** Outside that range the evaluation of the cutoff raises. *)
Lemma revenue_cutoff_raise (now : datetime) (x_days : Z) :
  ~ cutoff_in_range now x_days ->
  revenue_cutoff now x_days = Raise OverflowError.
Proof.
  intros H. unfold revenue_cutoff, timedelta_days.
  destruct (Z.leb_spec (Z.abs x_days) 999999999) as [Hdays|]; [|reflexivity].
  unfold datetime_sub. fold (days_before now x_days).
  destruct (Z.leb_spec datetime_min (days_before now x_days)) as [Hmin|];
    [|reflexivity].
  destruct (Z.leb_spec (days_before now x_days) datetime_max) as [Hmax|];
    [|reflexivity].
  exfalso. apply H. split; [exact Hdays | split; assumption].
Qed.

(** The selected rows of the revenue query, weighted by a function of the
    product, against the association rows weighted after two lookups. *)
Lemma revenue_rows_weight (cutoff : datetime) (d : Database)
  (g : Product.t -> Z) :
  primary_keys_ok d ->
  zsum (fun row => g (fst (fst row))) (revenue_rows cutoff d)
  = zsum
      (fun r =>
         match row_revenue cutoff d r,
               find_product d (OrderProduct.product_id r) with
         | Some _, Some p => g p
         | _, _ => 0
         end)
      (order_product d).
Proof.
  intros (_ & Horders & Hproducts).
  unfold revenue_rows.
  rewrite zsum_filter, zsum_join, zsum_join, zsum_swap.
  apply zsum_ext. intros r _. cbn [fst snd].
  rewrite (zsum_lookup Product.id
             (fun p =>
                zsum
                  (fun o =>
                     if Order.id o =? OrderProduct.order_id r
                     then
                       if Order.order_date o >? cutoff
                       then g p else 0
                     else 0)
                  (orders d))) by exact Hproducts.
  unfold row_revenue, find_product, find_order.
  destruct (find _ (products d)) as [p|].
  - rewrite (zsum_lookup Order.id
               (fun o =>
                  if Order.order_date o >? cutoff
                  then g p else 0)) by exact Horders.
    destruct (find _ (orders d)) as [o|]; [|reflexivity].
    destruct (Order.order_date o >? _); reflexivity.
  - destruct (find _ (orders d)); reflexivity.
Qed.

(** The column that the revenue query sums, weighted by [h], against the
    prices of the association rows that count. *)
Lemma revenue_column (cutoff : datetime) (d : Database) (h : Z -> Z) :
  primary_keys_ok d ->
  zsum h (map (fun row => Product.price (fst (fst row)))
            (revenue_rows cutoff d))
  = zsum h (revenue_prices cutoff d).
Proof.
  intros Hpk. unfold revenue_prices.
  rewrite zsum_map, zsum_not_null, zsum_map.
  rewrite (revenue_rows_weight cutoff d (fun p => h (Product.price p)) Hpk).
  apply zsum_ext. intros r _. unfold row_revenue.
  destruct (find_order d _) as [o|]; [|reflexivity].
  destruct (find_product d _) as [p|]; [|reflexivity].
  destruct (Order.order_date o >? _); reflexivity.
Qed.

Lemma revenue_query_refines (now : datetime) (x_days : Z) (d : Database) :
  primary_keys_ok d ->
  cutoff_in_range now x_days ->
  zsum Z.abs (revenue_prices (days_before now x_days) d)
  <= 9223372036854775807 ->
  revenue_query now x_days d
  = Ok (revenue_after (days_before now x_days) d).
Proof.
  intros Hpk Hrange Hfit. unfold revenue_query.
  rewrite (revenue_cutoff_ok now x_days Hrange).
  rewrite sql_sum_fits by (rewrite revenue_column by exact Hpk; exact Hfit).
  f_equal. unfold revenue_after. apply sum_or_null_eq.
  - apply revenue_column. exact Hpk.
  - apply Nat2Z.inj. rewrite <- !zsum_one.
    rewrite <- (zsum_map (fun _ => 1) (fun z : Z => z)).
    rewrite <- (zsum_map (fun _ => 1) (fun z : Z => z)
                  (revenue_prices _ _)).
    rewrite !map_id. apply (revenue_column _ _ (fun _ => 1) Hpk).
Qed.

(** Primary keys of a concrete database. *)
Ltac keys_ok :=
  repeat split; simpl;
  repeat (constructor; [simpl; intuition discriminate|]); constructor.



(** It raises what the query raises. *)
Lemma revenue_raise (now : datetime) (x_days : Z) (e : exn) w :
  revenue_query now x_days (db w) = Raise e ->
  revenue_in_last_x_days now x_days w = Raise e.
Proof.
  intros H. unfold revenue_in_last_x_days.
  unfold bind at 1. rewrite print_run.
  unfold bind at 1. unfold execute. cbn [db printed]. rewrite H. reflexivity.
Qed.








(** ** What the query functions hand back *)


(** It raises what the query raises. *)
Lemma get_orders_by_raise (customer_id : Z) (e : exn) w :
  orders_by_query customer_id (db w) = Raise e ->
  get_orders_by customer_id w = Raise e.
Proof.
  intros H. unfold get_orders_by.
  unfold bind at 1. rewrite print_run.
  unfold bind at 1. unfold execute. cbn [db printed]. rewrite H. reflexivity.
Qed.



(** ** The REAL numbers of the engine *)

















(** ** Average fulfilment time *)









(** ** The customers by amount purchased *)

(** C1. The text of lines 163-164 is no Python statement: line 163 closes
    all its brackets, so it ends the assignment, and line 164 begins with a
    dot, with which no statement begins. The interpreter raises
    [SyntaxError] and the function returns no customer, whatever the amount
    and the database. The revenue query of lines 144-146, broken the same
    way but inside the brackets of [print], is accepted. *)
Theorem customers_purchased_is_refused (amount : Z) (w : World) :
  logical_lines [] 0 lines_163_164 = [line_163; line_164]
  /\ hd_error line_164 = Some "."%string
  /\ refused lines_163_164 = true
  /\ refused lines_144_146 = false
  /\ get_customers_who_have_purchased_x_dollars amount w = Raise SyntaxError.
Proof.
  split; [reflexivity|]. split; [reflexivity|]. split; [reflexivity|].
  split; reflexivity.
Qed.

(** ** Computations that only read the database *)

Lemma reads_ret {A} (d : Database) (a : A) (P : A -> Prop) : P a -> reads d (ret a) P.
Proof. intros HP w b w' Hd [= <- <-]. now split. Qed.

Lemma reads_raise {A} (d : Database) e (P : A -> Prop) : reads d (raise e) P.
Proof. intros w a w' _ H. discriminate H. Qed.

Lemma reads_bind {A B} (d : Database) (m : M A) (k : A -> M B) (P : A -> Prop) (Q : B -> Prop) :
  reads d m P -> (forall a, P a -> reads d (k a) Q) -> reads d (bind m k) Q.
Proof.
  intros Hm Hk w b w' Hd H. apply bind_ok in H.
  destruct H as (a & w1 & H1 & H2).
  destruct (Hm w a w1 Hd H1) as [Hd1 Ha].
  exact (Hk a Ha w1 b w' Hd1 H2).
Qed.

Lemma reads_weaken {A} (d : Database) (m : M A) (P Q : A -> Prop) :
  reads d m P -> (forall a, P a -> Q a) -> reads d m Q.
Proof.
  intros Hm HPQ w a w' Hd H. destruct (Hm w a w' Hd H). split; auto.
Qed.

Lemma reads_query {A} (d : Database) (q : Database -> A) : reads d (query q) (fun a => a = q d).
Proof. intros w a w' Hd [= <- <-]. now rewrite Hd. Qed.

Lemma reads_raw (d : Database) tape : reads d (raw tape) (fun _ => True).
Proof. intros w a w' Hd [= <- <-]. now split. Qed.

Lemma reads_replicateM {A} (d : Database) n (m : M A) (P : A -> Prop) :
  reads d m P ->
  reads d (replicateM n m) (fun l => List.length l = n /\ Forall P l).
Proof.
  intros Hm. induction n as [|n IH]; cbn [replicateM].
  - apply reads_ret. split; [reflexivity | constructor].
  - eapply reads_bind; [exact Hm|]. intros a Ha.
    eapply reads_bind; [exact IH|]. intros l [Hlen Hl].
    apply reads_ret. split; [cbn; congruence | now constructor].
Qed.

Lemma reads_mapM {A B} (d : Database) (f : A -> M B) (R : A -> B -> Prop) l :
  (forall x, reads d (f x) (R x)) ->
  reads d (mapM f l) (fun ys => Forall2 R l ys).
Proof.
  intros Hf. induction l as [|x l IH]; cbn [mapM].
  - apply reads_ret. constructor.
  - eapply reads_bind; [apply Hf|]. intros b Hb.
    eapply reads_bind; [exact IH|]. intros bs Hbs.
    apply reads_ret. now constructor.
Qed.

(** ** Python's [random] and Faker *)

Section Draws.
Variable tape : N -> N.
Variable d : Database.

Lemma reads_randint a b :
  reads d (random_randint tape a b) (fun k => a <= k <= b).
Proof.
  unfold random_randint. destruct (b <? a) eqn:E; [apply reads_raise|].
  eapply reads_bind; [apply reads_raw|]. intros r _. apply reads_ret.
  apply Z.ltb_ge in E.
  pose proof (Z.mod_pos_bound (Z.of_N r) (b - a + 1)). lia.
Qed.

Lemma reads_choice {A} (seq : list A) :
  reads d (random_choice tape seq) (fun a => In a seq).
Proof.
  unfold random_choice. destruct seq as [|x seq]; [apply reads_raise|].
  eapply reads_bind; [apply reads_raw|]. intros r _. apply reads_ret.
  apply nth_In.
  assert (H : (r mod N.of_nat (List.length (x :: seq))
               < N.of_nat (List.length (x :: seq)))%N)
    by (apply N.mod_lt; cbn [List.length]; lia).
  lia.
Qed.

(** [random.choices(population, weights)[0]] is one of the population. *)
Lemma reads_choices0 {A} (population : list A) weights :
  reads d (l <- random_choices tape population weights ;; subscript0 l)
    (fun a => In a population).
Proof.
  eapply reads_bind with (P := fun l => Forall (fun a => In a population) l).
  - unfold random_choices.
    destruct (negb _); [apply reads_raise|].
    destruct (_ =? _)%N; [apply reads_raise|].
    eapply reads_bind; [apply reads_raw|]. intros r _.
    destruct (nth_error population _) as [a|] eqn:E; [|apply reads_raise].
    apply reads_ret. constructor; [|constructor].
    eapply nth_error_In. exact E.
  - intros [|a l] Hl; [apply reads_raise|].
    apply reads_ret. now inversion Hl.
Qed.

Lemma nth_remove_perm {A} (x : A) j l :
  (j < List.length l)%nat ->
  Permutation l (nth j l x :: remove_nth j l).
Proof.
  revert j. induction l as [|a l IH]; intros j Hj; [cbn in Hj; lia|].
  destruct j as [|j].
  - apply Permutation_refl.
  - change (remove_nth (S j) (a :: l)) with (a :: remove_nth j l).
    cbn [nth]. eapply perm_trans; [|apply perm_swap].
    apply perm_skip, IH. cbn in Hj. lia.
Qed.

(** A sample is made of members of the pool taken at different places. *)
Lemma reads_sample_pool {A} (k : nat) :
  forall pool : list A,
    reads d (sample_pool tape pool k)
      (fun chosen =>
         List.length chosen = k
         /\ exists rest, Permutation pool (chosen ++ rest)).
Proof.
  induction k as [|k IH]; intros pool; cbn [sample_pool].
  - apply reads_ret. split; [reflexivity|]. exists pool. reflexivity.
  - destruct pool as [|x pool']; [apply reads_raise|].
    set (pool := x :: pool').
    eapply reads_bind; [apply reads_raw|]. intros r _.
    set (j := N.to_nat (r mod N.of_nat (List.length pool))).
    assert (Hj : (j < List.length pool)%nat).
    { assert (H : (r mod N.of_nat (List.length pool)
                   < N.of_nat (List.length pool))%N)
        by (apply N.mod_lt; unfold pool; cbn [List.length]; lia).
      unfold j. lia. }
    eapply reads_bind; [apply IH|]. intros chosen (Hlen & rest & Hperm).
    apply reads_ret. split; [cbn; congruence|].
    exists rest. cbn [app].
    eapply perm_trans; [apply (nth_remove_perm x j pool Hj)|].
    now apply perm_skip.
Qed.

Lemma reads_sample {A} (population : list A) (k : Z) :
  reads d (random_sample tape population k)
    (fun chosen =>
       Z.of_nat (List.length chosen) = k
       /\ exists rest, Permutation population (chosen ++ rest)).
Proof.
  unfold random_sample.
  destruct (k <? 0) eqn:E; cbn [orb]; [apply reads_raise|].
  destruct (_ <? k); [apply reads_raise|].
  eapply reads_weaken; [apply reads_sample_pool|].
  intros chosen [Hlen Hrest]. split; [|exact Hrest].
  apply Z.ltb_ge in E. lia.
Qed.

Lemma reads_provider fake f :
  reads d (provider tape fake f) (fun _ => True).
Proof.
  unfold provider. eapply reads_bind; [apply reads_raw|].
  intros r _. now apply reads_ret.
Qed.

(** A date lies in its whole second. *)
Lemma whole_seconds_bounds (t : datetime) :
  of_seconds (whole_seconds t) <= t < of_seconds (whole_seconds t + 1).
Proof.
  unfold of_seconds, whole_seconds.
  pose proof (Z.div_mod t 1000000 ltac:(lia)).
  pose proof (Z.mod_pos_bound t 1000000 ltac:(lia)). lia.
Qed.

Lemma whole_seconds_mono (s t : datetime) :
  s <= t -> whole_seconds s <= whole_seconds t.
Proof. intros H. apply Z.div_le_mono; lia. Qed.

Lemma reads_uniform a b :
  a <= b ->
  reads d (random_uniform tape a b)
    (fun t => of_seconds a <= t <= of_seconds b).
Proof.
  intros Hab. unfold random_uniform.
  eapply reads_bind; [apply reads_raw|]. intros r _. apply reads_ret.
  unfold of_seconds in *.
  pose proof (Z.mod_pos_bound (Z.of_N r) ((b - a) * 1000000 + 1)). lia.
Qed.

(** What Faker draws from a start date: an instant from the whole second
    of the start, and no later than the whole second of now or, when that
    is not more than a second away, the second after the one of the
    start. *)
Lemma reads_date_time_between now start_date :
  reads d (fake_date_time_between tape now start_date)
    (fun t =>
       of_seconds (whole_seconds start_date) <= t
       /\ t <= of_seconds
                 (Z.max (whole_seconds now) (whole_seconds start_date + 1))).
Proof.
  unfold fake_date_time_between.
  destruct (Z.leb_spec (whole_seconds now - whole_seconds start_date) 1).
  - eapply reads_weaken; [apply reads_uniform; lia|].
    intros t Ht. cbv beta in Ht. unfold of_seconds in *. lia.
  - eapply reads_weaken; [apply reads_uniform; lia|].
    intros t Ht. cbv beta in Ht. unfold of_seconds in *. lia.
Qed.

Lemma reads_date_time_this_year fake now :
  reads d (fake_date_time_this_year tape fake now)
    (fun t =>
       of_seconds (whole_seconds (Faker.year_start fake now)) <= t
       /\ t <= of_seconds (whole_seconds now)).
Proof.
  unfold fake_date_time_this_year.
  destruct (Z.ltb_spec (whole_seconds now)
              (whole_seconds (Faker.year_start fake now)));
    [apply reads_raise|].
  eapply reads_weaken; [apply reads_uniform; lia|].
  intros t Ht. exact Ht.
Qed.

(** ** The generated orders *)

Lemma reads_new_order fake now customers :
  reads d (new_order tape fake now customers)
    (fun o =>
       (forall id, dates_in_order_to_the_second (o id))
       /\ keyed Order.id o).
Proof.
  unfold new_order.
  eapply reads_bind; [apply reads_choice|]. intros customer _.
  eapply reads_bind; [apply reads_date_time_this_year|].
  intros ordered_date _.
  eapply reads_bind; [apply reads_date_time_between|].
  intros shipped_candidate Hshipped.
  eapply reads_bind; [apply reads_choices0|].
  intros shipped_date Hchoice.
  eapply reads_bind
    with (P := fun delivered_date =>
                 forall delivered, delivered_date = Some delivered ->
                   exists shipped,
                     shipped_date = Some shipped
                     /\ delivered >= of_seconds (whole_seconds shipped)).
  - destruct shipped_date as [shipped|].
    + eapply reads_bind; [apply reads_date_time_between|].
      intros delivered_candidate Hdelivered.
      eapply reads_weaken; [apply reads_choices0|].
      intros delivered_date [<-|[<-|[]]] delivered [= <-].
      exists shipped. cbv beta in Hdelivered. split; [reflexivity | lia].
    + apply reads_ret. discriminate.
  - intros delivered_date Hdelivered.
    eapply reads_bind; [apply reads_choices0|]. intros coupon_code _.
    apply reads_ret. split; [|intros id; reflexivity].
    intros id. split; cbn.
    + exact Hdelivered.
    + intros shipped ->. cbv beta in Hshipped.
      destruct Hchoice as [[=]|[[= <-]|[]]]. lia.
Qed.
End Draws.

(** ** Commit *)

Lemma commit_ok {A} (ins : A -> Database -> result Database) pending w u w' :
  commit ins pending w = Ok (u, w') ->
  insert_all ins pending (db w) = Ok (db w').
Proof.
  unfold commit. destruct (insert_all ins pending (db w)); [|discriminate].
  intros [= _ <-]. reflexivity.
Qed.

Lemma next_id_above ids x : In x ids -> x < next_id ids.
Proof.
  unfold next_id. induction ids as [|y ids IH]; [contradiction|].
  cbn [fold_right]. intros [->|Hx]; [lia|]. specialize (IH Hx). lia.
Qed.

(** The key given on insertion is new to the table. *)
Lemma NoDup_next_id {A} (key : A -> Z) (rows : list A) (pending : Z -> A) :
  keyed key pending ->
  NoDup (map key rows) ->
  NoDup (map key (rows ++ [pending (next_id (map key rows))])).
Proof.
  intros Hkey Hnd. rewrite map_app. cbn [map]. rewrite Hkey.
  apply NoDup_app; [exact Hnd | repeat constructor; intros [] |].
  intros x Hx [<-|[]]. apply next_id_above in Hx. lia.
Qed.

Lemma insert_all_customers pending :
  forall d d',
    insert_all insert_customer pending d = Ok d' ->
    List.length (customers d')
    = (List.length (customers d) + List.length pending)%nat
    /\ orders d' = orders d
    /\ products d' = products d
    /\ order_product d' = order_product d
    /\ (Forall (keyed Customer.id) pending ->
        NoDup (map Customer.id (customers d)) ->
        NoDup (map Customer.id (customers d'))).
Proof.
  induction pending as [|c pending IH]; intros d d'; cbn [insert_all].
  - intros [= <-]. cbn. repeat split; [lia | tauto].
  - unfold insert_customer at 1. destruct (existsb _ _); [discriminate|].
    intros H. apply IH in H. cbn in H. rewrite length_app in H.
    destruct H as (Hlen & Ho & Hp & Hop & Hkeys).
    repeat split; try assumption; [cbn in *; lia|].
    intros Hall Hnd. inversion Hall; subst.
    apply Hkeys; [assumption|]. now apply NoDup_next_id.
Qed.

Lemma insert_all_orders pending :
  forall d d',
    insert_all insert_order pending d = Ok d' ->
    customers d' = customers d
    /\ products d' = products d
    /\ order_product d' = order_product d
    /\ (Forall (keyed Order.id) pending ->
        NoDup (map Order.id (orders d)) ->
        NoDup (map Order.id (orders d')))
    /\ exists generated,
         orders d' = orders d ++ generated
         /\ List.length generated = List.length pending
         /\ forall P : Order.t -> Prop,
              Forall (fun o => forall id, P (o id)) pending ->
              Forall P generated.
Proof.
  induction pending as [|o pending IH]; intros d d'; cbn [insert_all].
  - intros [= <-]. repeat split; [tauto|]. exists []. rewrite app_nil_r.
    repeat split. constructor.
  - unfold insert_order at 1. intros H. apply IH in H. cbn in H.
    destruct H as (Hc & Hp & Hop & Hkeys & generated & Ho & Hlen & HP).
    repeat split; try assumption.
    + intros Hall Hnd. inversion Hall; subst.
      apply Hkeys; [assumption|]. now apply NoDup_next_id.
    + exists (o (next_id (map Order.id (orders d))) :: generated).
      rewrite Ho, <- app_assoc. repeat split.
      * cbn. congruence.
      * intros P Hall. inversion Hall; subst. constructor; auto.
Qed.

Lemma insert_all_products pending :
  forall d d',
    insert_all insert_product pending d = Ok d' ->
    customers d' = customers d
    /\ orders d' = orders d
    /\ order_product d' = order_product d
    /\ (Forall (keyed Product.id) pending ->
        NoDup (map Product.id (products d)) ->
        NoDup (map Product.id (products d'))).
Proof.
  induction pending as [|p pending IH]; intros d d'; cbn [insert_all].
  - intros [= <-]. repeat split. tauto.
  - unfold insert_product at 1. destruct (existsb _ _); [discriminate|].
    intros H. apply IH in H. cbn in H.
    destruct H as (Hc & Ho & Hop & Hkeys).
    repeat split; try assumption.
    intros Hall Hnd. inversion Hall; subst.
    apply Hkeys; [assumption|]. now apply NoDup_next_id.
Qed.

Lemma insert_all_order_products pending :
  forall d d',
    insert_all insert_order_product pending d = Ok d' ->
    customers d' = customers d
    /\ orders d' = orders d
    /\ products d' = products d
    /\ order_product d' = order_product d ++ pending.
Proof.
  induction pending as [|r pending IH]; intros d d'; cbn [insert_all].
  - intros [= <-]. rewrite app_nil_r. repeat split.
  - unfold insert_order_product at 1. destruct (existsb _ _); [discriminate|].
    intros H. apply IH in H. cbn in H. rewrite <- app_assoc in H. exact H.
Qed.

(** ** The steps of the generator *)

Section Generator.
Variable tape : N -> N.
Variable fake : Faker.t.
Variable now : datetime.

Lemma reads_new_customer d :
  reads d (new_customer tape fake) (keyed Customer.id).
Proof.
  unfold new_customer.
  repeat (eapply reads_bind; [apply reads_provider|]; intros ? _).
  apply reads_ret. intros id. reflexivity.
Qed.

Lemma reads_new_product d :
  reads d (new_product tape fake) (keyed Product.id).
Proof.
  unfold new_product.
  eapply reads_bind; [apply reads_provider|]. intros name _.
  eapply reads_bind; [apply reads_randint|]. intros price _.
  apply reads_ret. intros id. reflexivity.
Qed.

Lemma add_customers_ok w u w' :
  add_customers tape fake w = Ok (u, w') ->
  List.length (customers (db w'))
  = (List.length (customers (db w)) + 100)%nat
  /\ orders (db w') = orders (db w)
  /\ products (db w') = products (db w)
  /\ order_product (db w') = order_product (db w)
  /\ (NoDup (map Customer.id (customers (db w))) ->
      NoDup (map Customer.id (customers (db w')))).
Proof.
  unfold add_customers. intros H. apply bind_ok in H.
  destruct H as (pending & w1 & Hgen & Hcommit).
  destruct (reads_replicateM (db w) 100 _ _ (reads_new_customer (db w))
              w pending w1 eq_refl Hgen) as (Hdb & Hlen & Hall).
  apply commit_ok, insert_all_customers in Hcommit.
  rewrite Hdb, Hlen in Hcommit.
  destruct Hcommit as (Hcount & Ho & Hp & Hop & Hkeys).
  repeat split; try assumption. now apply Hkeys.
Qed.

Lemma add_orders_ok w u w' :
  add_orders tape fake now w = Ok (u, w') ->
  customers (db w') = customers (db w)
  /\ products (db w') = products (db w)
  /\ order_product (db w') = order_product (db w)
  /\ (NoDup (map Order.id (orders (db w))) ->
      NoDup (map Order.id (orders (db w'))))
  /\ exists generated,
       orders (db w') = orders (db w) ++ generated
       /\ List.length generated = 1000%nat
       /\ Forall dates_in_order_to_the_second generated.
Proof.
  unfold add_orders. intros H. apply bind_ok in H.
  destruct H as (cs & w0 & Hq & H). apply query_ok in Hq.
  destruct Hq as [-> ->]. apply bind_ok in H.
  destruct H as (pending & w1 & Hgen & Hcommit).
  destruct (reads_replicateM (db w) 1000 _ _
              (reads_new_order tape (db w) fake now (customers (db w)))
              w pending w1 eq_refl Hgen) as (Hdb & Hlen & Hall).
  apply commit_ok, insert_all_orders in Hcommit. rewrite Hdb in Hcommit.
  destruct Hcommit as (Hc & Hp & Hop & Hkeys & generated & Ho & Hlen' & HP).
  repeat split; try assumption.
  - apply Hkeys. eapply Forall_impl; [|exact Hall]. now intros o [_ Hk].
  - exists generated. repeat split; [exact Ho | congruence |].
    apply HP. eapply Forall_impl; [|exact Hall]. now intros o [Hd _].
Qed.

Lemma add_products_ok w u w' :
  add_products tape fake w = Ok (u, w') ->
  customers (db w') = customers (db w)
  /\ orders (db w') = orders (db w)
  /\ order_product (db w') = order_product (db w)
  /\ (NoDup (map Product.id (products (db w))) ->
      NoDup (map Product.id (products (db w')))).
Proof.
  unfold add_products. intros H. apply bind_ok in H.
  destruct H as (pending & w1 & Hgen & Hcommit).
  destruct (reads_replicateM (db w) 10 _ _ (reads_new_product (db w))
              w pending w1 eq_refl Hgen) as (Hdb & _ & Hall).
  apply commit_ok, insert_all_products in Hcommit.
  rewrite Hdb in Hcommit. destruct Hcommit as (Hc & Ho & Hop & Hkeys).
  repeat split; try assumption. now apply Hkeys.
Qed.
End Generator.




(** ** Linking orders to products *)

Lemma reads_link_order tape d o :
  reads d (link_order tape (products d) o) (linked d o).
Proof.
  unfold link_order.
  eapply reads_bind; [apply reads_randint|]. intros k Hk.
  eapply reads_bind; [apply reads_sample|].
  intros chosen (Hlen & rest & Hperm).
  eapply reads_bind; [apply reads_query|]. intros before ->.
  apply reads_ret. exists chosen, rest. cbv beta in Hk.
  split; [lia|]. split; [exact Hperm | reflexivity].
Qed.

Lemma add_order_products_ok tape w u w' :
  add_order_products tape w = Ok (u, w') ->
  customers (db w') = customers (db w)
  /\ orders (db w') = orders (db w)
  /\ products (db w') = products (db w)
  /\ exists pending,
       order_product (db w') = order_product (db w) ++ List.concat pending
       /\ Forall2 (linked (db w)) (orders (db w)) pending.
Proof.
  unfold add_order_products. intros H. apply bind_ok in H.
  destruct H as (os & w0 & Hq & H). apply query_ok in Hq.
  destruct Hq as [-> ->]. apply bind_ok in H.
  destruct H as (ps & w0 & Hq & H). apply query_ok in Hq.
  destruct Hq as [-> ->]. apply bind_ok in H.
  destruct H as (pending & w1 & Hgen & Hcommit).
  destruct (reads_mapM (db w) _ (linked (db w)) (orders (db w))
              (reads_link_order tape (db w))
              w pending w1 eq_refl Hgen) as (Hdb & Hall).
  apply commit_ok, insert_all_order_products in Hcommit.
  rewrite Hdb in Hcommit. destruct Hcommit as (Hc & Ho & Hp & Hop).
  repeat split; try assumption. exists pending. now split.
Qed.

(** C8. When [create_random_data] completes on an empty database, the
    customer table holds exactly the 100 customers that [add_customers]
    makes, and [how_many_customers] prints 100. *)
Theorem create_random_data_customer_count (tape : N -> N) (fake : Faker.t)
  (now : datetime) (w w' : World) :
  db w = empty_db ->
  create_random_data tape fake now w = Ok (tt, w') ->
  customer_count_query (db w') = 100
  /\ how_many_customers w'
     = Ok (VNone, printed w' [VStr "How many customers?"; VInt 100]).
Proof.
  unfold create_random_data, create_all. intros Hempty H.
  apply bind_ok in H. destruct H as ([] & w0 & [= <-] & H).
  apply bind_ok in H. destruct H as (u1 & w1 & H1 & H).
  apply bind_ok in H. destruct H as (u2 & w2 & H2 & H).
  apply bind_ok in H. destruct H as (u3 & w3 & H3 & H4).
  apply add_customers_ok in H1. destruct H1 as (Hlen & _).
  apply add_orders_ok in H2. destruct H2 as (Hc2 & _).
  apply add_products_ok in H3. destruct H3 as (Hc3 & _).
  apply add_order_products_ok in H4. destruct H4 as (Hc4 & _).
  assert (Hcount : customer_count_query (db w') = 100).
  { unfold customer_count_query.
    rewrite Hc4, Hc3, Hc2, Hlen, Hempty. reflexivity. }
  split; [exact Hcount|].
  unfold how_many_customers. rewrite scalar_run. now rewrite Hcount.
Qed.

Lemma create_random_data_customer_count_witness :
  customer_count_query (db after_create_random_data) = 100
  /\ how_many_customers after_create_random_data
     = Ok (VNone,
           printed after_create_random_data
             [VStr "How many customers?"; VInt 100]).
Proof.
  refine (create_random_data_customer_count counting_tape demo_fake noon
            (world_of empty_db) after_create_random_data eq_refl _).
  vm_compute. reflexivity.
Defined.

Lemma filter_all {A} (p : A -> bool) l :
  (forall a, In a l -> p a = true) -> filter p l = l.
Proof.
  induction l as [|a l IH]; intros H; cbn [filter]; [reflexivity|].
  rewrite (H a (or_introl eq_refl)), IH; [reflexivity|].
  intros b Hb. apply H. now right.
Qed.

Lemma filter_key_unique {A} (key : A -> Z) (s : A) l :
  NoDup (map key l) -> In s l ->
  filter (fun a => key a =? key s) l = [s].
Proof.
  induction l as [|a l IH]; intros Hnd Hin; [contradiction|].
  inversion Hnd as [|? ? Hnotin Hnd']; subst. cbn [filter].
  destruct Hin as [->|Hin].
  - rewrite Z.eqb_refl, filter_none; [reflexivity|].
    intros b Hb. apply Z.eqb_neq. intros E. apply Hnotin.
    rewrite <- E. now apply in_map.
  - destruct (Z.eqb_spec (key a) (key s)) as [E|_].
    + exfalso. apply Hnotin. rewrite E. now apply in_map.
    + now apply IH.
Qed.

Lemma linked_order_id d o rows :
  linked d o rows ->
  Forall (fun r => OrderProduct.order_id r = Order.id o) rows.
Proof.
  intros (chosen & rest & _ & _ & ->). apply Forall_forall.
  intros r Hr. apply in_map_iff in Hr. destruct Hr as (p & <- & _).
  reflexivity.
Qed.

Lemma rows_of_other_orders d os pending k :
  Forall2 (linked d) os pending ->
  (forall o, In o os -> Order.id o <> k) ->
  filter (fun r => OrderProduct.order_id r =? k) (List.concat pending) = [].
Proof.
  induction 1 as [|o rows os pending Hrows Hrest IH]; intros Hk;
    [reflexivity|].
  cbn [List.concat]. rewrite filter_app, IH by (intros; apply Hk; now right).
  rewrite app_nil_r. apply filter_none. intros r Hr.
  apply linked_order_id in Hrows. rewrite Forall_forall in Hrows.
  apply Z.eqb_neq. rewrite (Hrows r Hr). apply Hk. now left.
Qed.

Lemma rows_of_order d os pending o :
  Forall2 (linked d) os pending ->
  NoDup (map Order.id os) -> In o os ->
  exists rows,
    linked d o rows
    /\ filter (fun r => OrderProduct.order_id r =? Order.id o)
         (List.concat pending)
       = rows.
Proof.
  induction 1 as [|o1 rows os pending Hrows Hrest IH]; intros Hnd Hin;
    [contradiction|].
  inversion Hnd as [|? ? Hnotin Hnd']; subst.
  cbn [List.concat]. rewrite filter_app. destruct Hin as [->|Hin].
  - exists rows. split; [exact Hrows|].
    rewrite (rows_of_other_orders d os pending (Order.id o) Hrest).
    + rewrite app_nil_r. apply filter_all. intros r Hr.
      apply linked_order_id in Hrows. rewrite Forall_forall in Hrows.
      apply Z.eqb_eq. now apply Hrows.
    + intros o' Ho' E. apply Hnotin. rewrite <- E. now apply in_map.
  - destruct (IH Hnd' Hin) as (rows' & Hlinked & Hfilter).
    exists rows'. split; [exact Hlinked|].
    rewrite Hfilter, filter_none; [reflexivity|].
    intros r Hr. apply linked_order_id in Hrows.
    rewrite Forall_forall in Hrows. apply Z.eqb_neq. rewrite (Hrows r Hr).
    intros E. apply Hnotin. rewrite E. now apply in_map.
Qed.

Lemma products_of_rows (order_id : Z) (ps chosen : list Product.t) :
  NoDup (map Product.id ps) -> incl chosen ps ->
  map snd
    (join (fun r p => Product.id p =? OrderProduct.product_id r)
       (map (fun p => OrderProduct.Build order_id (Product.id p)) chosen)
       ps)
  = chosen.
Proof.
  intros Hnd. induction chosen as [|s chosen IH]; intros Hincl;
    [reflexivity|].
  unfold join in *. cbn [map flat_map]. rewrite map_app, IH.
  - cbn [OrderProduct.product_id].
    rewrite (filter_key_unique Product.id s ps Hnd);
      [reflexivity | apply Hincl; now left].
  - intros p Hp. apply Hincl. now right.
Qed.

(** After [add_order_products] an order holds the products that were
    sampled for it. *)
Lemma sampled_after_add_order_products (tape : N -> N) (w w' : World) :
  primary_keys_ok (db w) ->
  order_product (db w) = [] ->
  add_order_products tape w = Ok (tt, w') ->
  forall o,
    In o (orders (db w')) ->
    exists rest,
      (1 <= List.length (Order_products (db w') o) <= 3)%nat
      /\ Permutation (products (db w)) (Order_products (db w') o ++ rest).
Proof.
  intros (_ & Horders & Hproducts) Hempty H o Ho.
  apply add_order_products_ok in H.
  destruct H as (_ & Ho' & Hp' & pending & Hop' & Hall).
  rewrite Ho' in Ho. rewrite Hempty in Hop'. cbn [app] in Hop'.
  destruct (rows_of_order _ _ _ o Hall Horders Ho)
    as (rows & (chosen & rest & Hlen & Hperm & Hrows) & Hfilter).
  assert (Hbefore : Order_products (db w) o = []).
  { unfold Order_products. now rewrite Hempty. }
  rewrite Hbefore, filter_all in Hrows by reflexivity.
  assert (Hafter : Order_products (db w') o = chosen).
  { unfold Order_products. rewrite Hop', Hfilter, Hrows, Hp'.
    apply products_of_rows; [exact Hproducts|].
    intros p Hp. apply (Permutation_in _ (Permutation_sym Hperm)).
    apply in_or_app. now left. }
  rewrite Hafter. exists rest. now split.
Qed.

Lemma NoDup_sampled {A} (key : A -> Z) (table chosen rest : list A) :
  NoDup (map key table) ->
  Permutation table (chosen ++ rest) ->
  NoDup (map key chosen).
Proof.
  intros Hnd Hperm. apply (Permutation_map key) in Hperm.
  apply (Permutation_NoDup Hperm) in Hnd.
  rewrite map_app in Hnd. now apply NoDup_app_remove_r in Hnd.
Qed.

(** C6, as the specification words it, fails: [add_order_products] appends
    to what an order holds. Run on an order that holds three of five
    products, with the draws 2 for the number of products and the fourth
    and fifth product for the sample, it leaves the order with five
    products. *)
Lemma order_with_five_products :
  primary_keys_ok linked_db
  /\ add_order_products relinking_tape (world_of linked_db)
     = Ok (tt, after_relinking)
  /\ exists o,
       In o (orders (db after_relinking))
       /\ List.length (Order_products (db after_relinking) o) = 5%nat.
Proof.
  split; [keys_ok|]. split; [vm_compute; reflexivity|].
  exists (no_order 1 noon 1). split; [left|]; reflexivity.
Qed.

(** C6, amended. When [add_order_products] completes on a database whose
    primary keys are unique and whose association table is still empty,
    every order holds between one and three products, no product twice. *)
Theorem add_order_products_links (tape : N -> N) (w w' : World) :
  primary_keys_ok (db w) ->
  order_product (db w) = [] ->
  add_order_products tape w = Ok (tt, w') ->
  forall o,
    In o (orders (db w')) ->
    (1 <= List.length (Order_products (db w') o) <= 3)%nat
    /\ NoDup (map Product.id (Order_products (db w') o)).
Proof.
  intros Hkeys Hempty H o Ho.
  destruct (sampled_after_add_order_products tape w w' Hkeys Hempty H o Ho)
    as (rest & Hlen & Hperm).
  split; [exact Hlen|].
  destruct Hkeys as (_ & _ & Hproducts).
  exact (NoDup_sampled Product.id _ _ rest Hproducts Hperm).
Qed.

(** The same after the whole generator ran on an empty database: the steps
    before [add_order_products] give unique keys and leave the association
    table empty. *)
Lemma create_random_data_links (tape : N -> N) (fake : Faker.t)
  (now : datetime) (w w' : World) :
  db w = empty_db ->
  create_random_data tape fake now w = Ok (tt, w') ->
  forall o,
    In o (orders (db w')) ->
    (1 <= List.length (Order_products (db w') o) <= 3)%nat
    /\ NoDup (map Product.id (Order_products (db w') o)).
Proof.
  unfold create_random_data, create_all. intros Hempty H.
  apply bind_ok in H. destruct H as ([] & w0 & [= <-] & H).
  apply bind_ok in H. destruct H as (u1 & w1 & H1 & H).
  apply bind_ok in H. destruct H as (u2 & w2 & H2 & H).
  apply bind_ok in H. destruct H as (u3 & w3 & H3 & H4).
  apply add_customers_ok in H1. destruct H1 as (_ & Ho1 & Hp1 & Hop1 & Hk1).
  apply add_orders_ok in H2. destruct H2 as (Hc2 & Hp2 & Hop2 & Hk2 & _).
  apply add_products_ok in H3. destruct H3 as (Hc3 & Ho3 & Hop3 & Hk3).
  rewrite Hempty in *. cbn in Ho1, Hp1, Hop1, Hk1.
  intros o Ho.
  assert (Hkeys : primary_keys_ok (db w3)).
  { repeat split.
    - rewrite Hc3, Hc2. apply Hk1. constructor.
    - rewrite Ho3. apply Hk2. rewrite Ho1. constructor.
    - apply Hk3. rewrite Hp2, Hp1. constructor. }
  assert (Hnone : order_product (db w3) = []) by congruence.
  destruct (sampled_after_add_order_products tape w3 w' Hkeys Hnone H4 o Ho)
    as (rest & Hlen & Hperm).
  split; [exact Hlen|].
  destruct Hkeys as (_ & _ & Hproducts).
  exact (NoDup_sampled Product.id _ _ rest Hproducts Hperm).
Qed.

Lemma add_order_products_links_witness :
  In (no_order 1 noon 1) (orders (db after_add_order_products))
  /\ (1 <= List.length
             (Order_products (db after_add_order_products)
                (no_order 1 noon 1)) <= 3)%nat
  /\ NoDup
       (map Product.id
          (Order_products (db after_add_order_products) (no_order 1 noon 1))).
Proof.
  split; [left; reflexivity|].
  refine (add_order_products_links counting_tape (world_of unlinked_db)
            after_add_order_products _ eq_refl _ (no_order 1 noon 1) _).
  - keys_ok.
  - vm_compute. reflexivity.
  - left. reflexivity.
Defined.

(** ** Runs that cannot fail *)

Lemma completes_ret {A} (d : Database) (a : A) (P : A -> Prop) :
  P a -> completes d (ret a) P.
Proof. intros HP w Hd. exists a, w. now repeat split. Qed.

Lemma completes_bind {A B} (d : Database) (m : M A) (k : A -> M B)
  (P : A -> Prop) (Q : B -> Prop) :
  completes d m P -> (forall a, P a -> completes d (k a) Q) ->
  completes d (bind m k) Q.
Proof.
  intros Hm Hk w Hd. destruct (Hm w Hd) as (a & w1 & H1 & Hd1 & Ha).
  destruct (Hk a Ha w1 Hd1) as (b & w2 & H2 & Hd2 & Hb).
  exists b, w2. unfold bind. rewrite H1. now repeat split.
Qed.

Lemma completes_weaken {A} (d : Database) (m : M A) (P Q : A -> Prop) :
  completes d m P -> (forall a, P a -> Q a) -> completes d m Q.
Proof.
  intros Hm HPQ w Hd. destruct (Hm w Hd) as (a & w' & H & Hd' & Ha).
  exists a, w'. repeat split; auto.
Qed.

Lemma completes_query {A} (d : Database) (q : Database -> A) :
  completes d (query q) (fun a => a = q d).
Proof.
  intros w Hd. exists (q (db w)), w.
  split; [reflexivity|]. split; [exact Hd | now rewrite Hd].
Qed.

Lemma completes_raw (d : Database) tape :
  completes d (raw tape) (fun _ => True).
Proof. intros w Hd. eexists _, _. split; [reflexivity|]. now split. Qed.

Lemma completes_replicateM {A} (d : Database) n (m : M A) (P : A -> Prop) :
  completes d m P ->
  completes d (replicateM n m) (fun l => Forall P l).
Proof.
  intros Hm. induction n as [|n IH]; cbn [replicateM].
  - apply completes_ret. constructor.
  - eapply completes_bind; [exact Hm|]. intros a Ha.
    eapply completes_bind; [exact IH|]. intros l Hl.
    apply completes_ret. now constructor.
Qed.

Lemma completes_mapM {A B} (d : Database) (f : A -> M B)
  (R : A -> B -> Prop) l :
  (forall x, completes d (f x) (R x)) ->
  completes d (mapM f l) (fun ys => Forall2 R l ys).
Proof.
  intros Hf. induction l as [|x l IH]; cbn [mapM].
  - apply completes_ret. constructor.
  - eapply completes_bind; [apply Hf|]. intros b Hb.
    eapply completes_bind; [exact IH|]. intros bs Hbs.
    apply completes_ret. now constructor.
Qed.

(** What [reads] tells of the result of a run that completes. *)
Lemma completes_reads {A} (d : Database) (m : M A) (P Q : A -> Prop) :
  completes d m P -> reads d m Q -> completes d m (fun a => P a /\ Q a).
Proof.
  intros Hm Hr w Hd. destruct (Hm w Hd) as (a & w' & H & Hd' & Ha).
  exists a, w'. repeat split; try assumption.
  now destruct (Hr w a w' Hd H).
Qed.

Section Completion.
Variable tape : N -> N.
Variable d : Database.

Lemma completes_randint a b :
  a <= b -> completes d (random_randint tape a b) (fun _ => True).
Proof.
  intros Hab. unfold random_randint.
  replace (b <? a) with false by (symmetry; apply Z.ltb_ge; lia).
  eapply completes_bind; [apply completes_raw|]. intros r _.
  now apply completes_ret.
Qed.

Lemma completes_choice {A} (seq : list A) :
  seq <> [] -> completes d (random_choice tape seq) (fun _ => True).
Proof.
  intros Hne. unfold random_choice. destruct seq as [|x seq]; [congruence|].
  eapply completes_bind; [apply completes_raw|]. intros r _.
  now apply completes_ret.
Qed.

Lemma bisect_weights_lt x weights :
  weights <> [] -> (bisect_weights x weights < List.length weights)%nat.
Proof.
  revert x. induction weights as [|w weights IH]; intros x Hne; [congruence|].
  destruct weights as [|w' weights]; [cbn; lia|].
  change (bisect_weights x (w :: w' :: weights))
    with (if (x <? w)%N then O
          else S (bisect_weights (x - w) (w' :: weights))).
  specialize (IH (x - w)%N ltac:(discriminate)).
  destruct (x <? w)%N; cbn [List.length] in *; lia.
Qed.

Lemma completes_choices0 {A} (population : list A) weights :
  List.length population = List.length weights ->
  fold_right N.add 0%N weights <> 0%N ->
  completes d (l <- random_choices tape population weights ;; subscript0 l)
    (fun _ => True).
Proof.
  intros Hlen Htotal.
  eapply completes_bind with (P := fun l => l <> []).
  - unfold random_choices.
    replace (List.length population =? List.length weights)%nat with true
      by (symmetry; now apply Nat.eqb_eq).
    cbn [negb].
    replace (fold_right N.add 0%N weights =? 0)%N with false
      by (symmetry; now apply N.eqb_neq).
    eapply completes_bind; [apply completes_raw|]. intros r _.
    destruct (nth_error population _) as [a|] eqn:E.
    + apply completes_ret. discriminate.
    + exfalso. apply nth_error_None in E.
      assert (Hw : weights <> []).
      { intros ->. now apply Htotal. }
      pose proof (bisect_weights_lt
                    (r mod fold_right N.add 0%N weights) weights Hw).
      lia.
  - intros [|a l] Hl; [congruence|]. now apply completes_ret.
Qed.

Lemma completes_sample_pool {A} (k : nat) :
  forall pool : list A,
    (k <= List.length pool)%nat ->
    completes d (sample_pool tape pool k) (fun _ => True).
Proof.
  induction k as [|k IH]; intros pool Hk; cbn [sample_pool].
  - now apply completes_ret.
  - destruct pool as [|x pool']; [cbn in Hk; lia|].
    set (pool := x :: pool') in *.
    eapply completes_bind; [apply completes_raw|]. intros r _.
    set (j := N.to_nat (r mod N.of_nat (List.length pool))).
    assert (Hj : (j < List.length pool)%nat).
    { assert (H : (r mod N.of_nat (List.length pool)
                   < N.of_nat (List.length pool))%N)
        by (apply N.mod_lt; unfold pool; cbn [List.length]; lia).
      unfold j. lia. }
    eapply completes_bind; [apply IH|].
    + pose proof (Permutation_length (nth_remove_perm x j pool Hj)) as Hl.
      cbn [List.length] in Hl. lia.
    + intros chosen _. now apply completes_ret.
Qed.

Lemma completes_sample {A} (population : list A) (k : Z) :
  0 <= k <= Z.of_nat (List.length population) ->
  completes d (random_sample tape population k) (fun _ => True).
Proof.
  intros Hk. unfold random_sample.
  replace (k <? 0) with false by (symmetry; apply Z.ltb_ge; lia).
  replace (Z.of_nat (List.length population) <? k) with false
    by (symmetry; apply Z.ltb_ge; lia).
  cbn [orb]. apply completes_sample_pool. lia.
Qed.

Lemma completes_uniform a b :
  completes d (random_uniform tape a b) (fun _ => True).
Proof.
  unfold random_uniform.
  eapply completes_bind; [apply completes_raw|]. intros r _.
  apply completes_ret. exact I.
Qed.

(** [date_time_between] refuses no start date. *)
Lemma completes_date_time_between now start_date :
  completes d (fake_date_time_between tape now start_date) (fun _ => True).
Proof.
  unfold fake_date_time_between.
  destruct (_ <=? 1); apply completes_uniform.
Qed.

Lemma completes_date_time_this_year fake now :
  Faker.year_start fake now <= now ->
  completes d (fake_date_time_this_year tape fake now) (fun _ => True).
Proof.
  intros Hyear. unfold fake_date_time_this_year.
  replace (whole_seconds now <? whole_seconds (Faker.year_start fake now))
    with false
    by (symmetry; apply Z.ltb_ge, whole_seconds_mono; exact Hyear).
  apply completes_uniform.
Qed.
End Completion.

(** ** The steps that cannot fail *)

Lemma completes_new_order tape d fake now customers :
  customers <> [] ->
  Faker.year_start fake now <= now ->
  completes d (new_order tape fake now customers) (fun _ => True).
Proof.
  intros Hcustomers Hyear. unfold new_order.
  eapply completes_bind; [now apply completes_choice|]. intros customer _.
  eapply completes_bind; [now apply completes_date_time_this_year|].
  intros ordered_date _.
  eapply completes_bind; [apply completes_date_time_between|].
  intros shipped_candidate _.
  eapply completes_bind;
    [apply completes_choices0; [reflexivity | discriminate]|].
  intros shipped_date _.
  eapply completes_bind with (P := fun _ => True).
  - destruct shipped_date as [shipped|]; [|now apply completes_ret].
    eapply completes_bind; [apply completes_date_time_between|].
    intros delivered_candidate _.
    apply completes_choices0; [reflexivity | discriminate].
  - intros delivered_date _.
    eapply completes_bind;
      [apply completes_choices0; [reflexivity | discriminate]|].
    intros coupon_code _. now apply completes_ret.
Qed.

Lemma insert_all_orders_total pending :
  forall d, exists d', insert_all insert_order pending d = Ok d'.
Proof.
  induction pending as [|o pending IH]; intros d; cbn [insert_all].
  - now exists d.
  - unfold insert_order at 1. apply IH.
Qed.

(** X24. With a customer to choose and a calendar whose year has begun,
    [add_orders] completes whatever is drawn. *)
Lemma add_orders_completes (tape : N -> N) (fake : Faker.t)
  (now : datetime) (w : World) :
  customers (db w) <> [] ->
  Faker.year_start fake now <= now ->
  exists w', add_orders tape fake now w = Ok (tt, w').
Proof.
  intros Hcustomers Hyear. unfold add_orders, bind at 1, query at 1.
  destruct (completes_replicateM (db w) 1000 _ _
              (completes_new_order tape (db w) fake now (customers (db w))
                 Hcustomers Hyear) w eq_refl)
    as (pending & w1 & Hgen & Hdb & _).
  unfold bind. rewrite Hgen. unfold commit.
  destruct (insert_all_orders_total pending (db w1)) as [d' ->].
  eexists. reflexivity.
Qed.

Lemma NoDup_map_filter {A} (key : A -> Z) (p : A -> bool) l :
  NoDup (map key l) -> NoDup (map key (filter p l)).
Proof.
  induction l as [|a l IH]; intros Hnd; [constructor|].
  inversion Hnd as [|? ? Hnotin Hnd']; subst. cbn [filter].
  destruct (p a); [|now apply IH].
  cbn [map]. constructor; [|now apply IH].
  intros Hin. apply Hnotin. apply in_map_iff in Hin.
  destruct Hin as (b & Hb & Hin). apply filter_In in Hin.
  rewrite <- Hb. apply in_map. tauto.
Qed.

Lemma NoDup_rows (order_id : Z) (l : list Product.t) :
  NoDup (map Product.id l) ->
  NoDup (map (fun p => OrderProduct.Build order_id (Product.id p)) l).
Proof.
  induction l as [|a l IH]; intros Hnd; [constructor|].
  inversion Hnd as [|? ? Hnotin Hnd']; subst. cbn [map].
  constructor; [|now apply IH].
  intros Hin. apply Hnotin. apply in_map_iff in Hin.
  destruct Hin as (b & [= Hb] & Hin). rewrite <- Hb. now apply in_map.
Qed.

Lemma linked_NoDup d o rows :
  NoDup (map Product.id (products d)) -> linked d o rows -> NoDup rows.
Proof.
  intros Hnd (chosen & rest & _ & Hperm & ->).
  apply NoDup_rows, NoDup_map_filter.
  exact (NoDup_sampled Product.id _ _ rest Hnd Hperm).
Qed.

Lemma in_pending_rows d os pending r :
  Forall2 (linked d) os pending ->
  In r (List.concat pending) ->
  exists o, In o os /\ OrderProduct.order_id r = Order.id o.
Proof.
  induction 1 as [|o rows os pending Hrows Hrest IH]; [contradiction|].
  cbn [List.concat]. intros Hin. apply in_app_or in Hin.
  destruct Hin as [Hin|Hin].
  - exists o. split; [now left|].
    apply linked_order_id in Hrows. rewrite Forall_forall in Hrows. auto.
  - destruct (IH Hin) as (o' & Ho' & E). exists o'. split; [now right|exact E].
Qed.

Lemma NoDup_pending_rows d os pending :
  NoDup (map Product.id (products d)) ->
  NoDup (map Order.id os) ->
  Forall2 (linked d) os pending ->
  NoDup (List.concat pending).
Proof.
  intros Hproducts Horders Hall.
  induction Hall as [|o rows os pending Hrows Hrest IH]; [constructor|].
  inversion Horders as [|? ? Hnotin Horders']; subst.
  cbn [List.concat]. apply NoDup_app.
  - exact (linked_NoDup d o rows Hproducts Hrows).
  - now apply IH.
  - intros r Hr Hr'.
    destruct (in_pending_rows d os pending r Hrest Hr') as (o' & Ho' & E).
    apply linked_order_id in Hrows. rewrite Forall_forall in Hrows.
    apply Hnotin. rewrite <- (Hrows r Hr), E. now apply in_map.
Qed.

Lemma insert_all_order_products_total rows :
  forall d,
    NoDup (order_product d ++ rows) ->
    exists d', insert_all insert_order_product rows d = Ok d'.
Proof.
  induction rows as [|r rows IH]; intros d Hnd; cbn [insert_all].
  - now exists d.
  - unfold insert_order_product at 1.
    destruct (existsb _ (order_product d)) eqn:E.
    + exfalso. apply existsb_exists in E. destruct E as (r' & Hin & Heq).
      apply andb_true_iff in Heq. destruct Heq as [H1 H2].
      apply Z.eqb_eq in H1, H2.
      assert (r' = r) by (destruct r', r; cbn in *; congruence). subst r'.
      apply NoDup_remove_2 in Hnd. apply Hnd, in_or_app. now left.
    + apply IH. cbn [order_product]. now rewrite <- app_assoc.
Qed.

(** X25. On unique keys, an empty association table and three products or
    more, [add_order_products] completes whatever is drawn. *)
Lemma add_order_products_completes (tape : N -> N) (w : World) :
  primary_keys_ok (db w) ->
  order_product (db w) = [] ->
  (3 <= List.length (products (db w)))%nat ->
  exists w', add_order_products tape w = Ok (tt, w').
Proof.
  intros (_ & Horders & Hproducts) Hempty Hthree.
  unfold add_order_products, bind at 1, query at 1.
  unfold bind at 1, query at 1.
  assert (Hlink : forall o,
             completes (db w) (link_order tape (products (db w)) o)
               (linked (db w) o)).
  { intros o. eapply completes_weaken.
    - apply (completes_reads (db w) _ (fun _ => True));
        [|apply reads_link_order].
      unfold link_order.
      eapply completes_bind.
      { apply (completes_reads (db w) _ (fun _ => True));
          [now apply completes_randint | apply reads_randint]. }
      intros k [_ Hk]. cbv beta in Hk.
      eapply completes_bind; [apply completes_sample; lia|].
      intros chosen _.
      eapply completes_bind; [apply completes_query|]. intros before _.
      now apply completes_ret.
    - now intros rows [_ Hrows]. }
  destruct (completes_mapM (db w) _ _ (orders (db w)) Hlink w eq_refl)
    as (pending & w1 & Hgen & Hdb & Hall).
  unfold bind. rewrite Hgen. unfold commit.
  destruct (insert_all_order_products_total (List.concat pending) (db w1))
    as [d' ->].
  - rewrite Hdb, Hempty. cbn [app].
    exact (NoDup_pending_rows (db w) _ _ Hproducts Horders Hall).
  - eexists. reflexivity.
Qed.

(* ================================================================== *)
(** * Part III. Further properties of the generator and the queries     *)
(* ================================================================== *)

(** ** Runs on the example databases *)

Lemma add_customers_demo_run :
  add_customers counting_tape demo_fake (world_of empty_db)
  = Ok (tt, after_add_customers).
Proof. vm_compute. reflexivity. Qed.

Lemma add_orders_demo_run :
  add_orders counting_tape demo_fake noon (world_of lonely_db)
  = Ok (tt, after_add_orders).
Proof. vm_compute. reflexivity. Qed.

Lemma add_products_demo_run :
  add_products counting_tape demo_fake (world_of empty_db)
  = Ok (tt, after_add_products).
Proof. vm_compute. reflexivity. Qed.

Lemma add_order_products_demo_run :
  add_order_products counting_tape (world_of unlinked_db)
  = Ok (tt, after_add_order_products).
Proof. vm_compute. reflexivity. Qed.

Lemma create_random_data_demo_run :
  create_random_data counting_tape demo_fake noon (world_of empty_db)
  = Ok (tt, after_create_random_data).
Proof. vm_compute. reflexivity. Qed.

(** ** What [add_orders] generates *)

(** Any property that every new order has, whatever key it is given, holds
    of the orders that [add_orders] appends. *)
Lemma add_orders_generated (tape : N -> N) (fake : Faker.t) (now : datetime)
  (P : Order.t -> Prop) (w : World) u (w' : World) :
  reads (db w) (new_order tape fake now (customers (db w)))
    (fun o => forall id, P (o id)) ->
  add_orders tape fake now w = Ok (u, w') ->
  exists generated,
    orders (db w') = orders (db w) ++ generated /\ Forall P generated.
Proof.
  unfold add_orders. intros Hnew H. apply bind_ok in H.
  destruct H as (cs & w0 & Hq & H). apply query_ok in Hq.
  destruct Hq as [-> ->]. apply bind_ok in H.
  destruct H as (pending & w1 & Hgen & Hcommit).
  destruct (reads_replicateM (db w) 1000 _ _ Hnew w pending w1 eq_refl Hgen)
    as (Hdb & _ & Hall).
  apply commit_ok, insert_all_orders in Hcommit. rewrite Hdb in Hcommit.
  destruct Hcommit as (_ & _ & _ & _ & generated & Ho & _ & HP).
  exists generated. split; [exact Ho | now apply HP].
Qed.

Lemma reads_new_order_coupon tape d fake now customers :
  reads d (new_order tape fake now customers)
    (fun o => forall id, known_coupon (o id)).
Proof.
  unfold new_order.
  eapply reads_bind; [apply reads_choice|]. intros customer _.
  eapply reads_bind; [apply reads_date_time_this_year|].
  intros ordered_date _.
  eapply reads_bind; [apply reads_date_time_between|]. intros candidate _.
  eapply reads_bind; [apply reads_choices0|]. intros shipped_date _.
  eapply reads_bind with (P := fun _ => True).
  - destruct shipped_date as [shipped|]; [|now apply reads_ret].
    eapply reads_bind; [apply reads_date_time_between|]. intros c _.
    eapply reads_weaken; [apply reads_choices0 | trivial].
  - intros delivered_date _.
    eapply reads_bind; [apply reads_choices0|]. intros coupon_code Hcode.
    apply reads_ret. intros id. unfold known_coupon. cbn.
    cbv beta in Hcode. cbn [In] in Hcode.
    intuition (subst; auto).
Qed.

Lemma reads_new_order_customer tape d fake now customers :
  reads d (new_order tape fake now customers)
    (fun o => forall id, of_customers customers (o id)).
Proof.
  unfold new_order.
  eapply reads_bind; [apply reads_choice|]. intros customer Hcustomer.
  eapply reads_bind; [apply reads_date_time_this_year|].
  intros ordered_date _.
  eapply reads_bind; [apply reads_date_time_between|]. intros candidate _.
  eapply reads_bind; [apply reads_choices0|]. intros shipped_date _.
  eapply reads_bind with (P := fun _ => True).
  - destruct shipped_date as [shipped|]; [|now apply reads_ret].
    eapply reads_bind; [apply reads_date_time_between|]. intros c _.
    eapply reads_weaken; [apply reads_choices0 | trivial].
  - intros delivered_date _.
    eapply reads_bind; [apply reads_choices0|]. intros coupon_code _.
    apply reads_ret. intros id. unfold of_customers. cbn.
    now apply in_map.
Qed.

Lemma whole_seconds_between (a b : Z) (t : datetime) :
  of_seconds a <= t <= of_seconds b -> a <= whole_seconds t <= b.
Proof.
  intros H. pose proof (whole_seconds_bounds t) as Ht.
  unfold of_seconds in *. lia.
Qed.

Lemma reads_new_order_within tape d fake now customers :
  reads d (new_order tape fake now customers)
    (fun o => forall id, dates_within (Faker.year_start fake now) now (o id)).
Proof.
  unfold new_order.
  set (first := whole_seconds (Faker.year_start fake now)).
  set (last := whole_seconds now).
  eapply reads_bind; [apply reads_choice|]. intros customer _.
  eapply reads_bind; [apply reads_date_time_this_year|].
  intros ordered_date Hordered. cbv beta in Hordered.
  fold first last in Hordered.
  pose proof (whole_seconds_between first last ordered_date
                ltac:(lia)) as Hsecond.
  eapply reads_bind; [apply reads_date_time_between|].
  intros candidate Hcandidate. cbv beta in Hcandidate.
  fold last in Hcandidate.
  assert (Hc : of_seconds first <= candidate <= of_seconds (last + 1))
    by (unfold of_seconds in *; lia).
  pose proof (whole_seconds_between first (last + 1) candidate Hc)
    as Hsecond'.
  eapply reads_bind; [apply reads_choices0|].
  intros shipped_date Hshipped. cbv beta in Hshipped.
  eapply reads_bind
    with (P := fun delivered_date =>
                 forall delivered,
                   delivered_date = Some delivered ->
                   of_seconds first <= delivered
                   /\ delivered <= of_seconds (last + 2)).
  - destruct shipped_date as [shipped|]; [|apply reads_ret; discriminate].
    destruct Hshipped as [[=]|[[= <-]|[]]].
    eapply reads_bind; [apply reads_date_time_between|].
    intros c Hd. cbv beta in Hd. fold last in Hd.
    eapply reads_weaken; [apply reads_choices0|].
    intros delivered_date [<-|[<-|[]]] delivered [= <-].
    unfold of_seconds in *. lia.
  - intros delivered_date Hdelivered.
    eapply reads_bind; [apply reads_choices0|]. intros coupon_code _.
    apply reads_ret. intros id. unfold dates_within. cbn.
    fold first last.
    split; [apply Hordered|]. split; [apply Hordered|].
    split; [|exact Hdelivered].
    intros shipped ->. destruct Hshipped as [[=]|[[= <-]|[]]].
    split; apply Hc.
Qed.

(** X1. Every order that [add_orders] generates carries no coupon code or
    one of "50OFF", "FREESHIPPING" and "BUYONEGETONE". *)
Theorem add_orders_coupon_codes (tape : N -> N) (fake : Faker.t)
  (now : datetime) (w w' : World) :
  add_orders tape fake now w = Ok (tt, w') ->
  exists generated,
    orders (db w') = orders (db w) ++ generated
    /\ Forall known_coupon generated.
Proof.
  intros H.
  exact (add_orders_generated tape fake now known_coupon w tt w'
           (reads_new_order_coupon tape _ fake now _) H).
Qed.

Lemma add_orders_coupon_codes_witness :
  exists generated,
    orders (db after_add_orders)
    = orders (db (world_of lonely_db)) ++ generated
    /\ Forall known_coupon generated.
Proof.
  exact (add_orders_coupon_codes counting_tape demo_fake noon
           (world_of lonely_db) after_add_orders add_orders_demo_run).
Defined.

(** X2. Every order that [add_orders] generates belongs to a customer of
    the table: its customer id is the id of a customer that was there when
    [add_orders] started. *)
Theorem add_orders_customers_exist (tape : N -> N) (fake : Faker.t)
  (now : datetime) (w w' : World) :
  add_orders tape fake now w = Ok (tt, w') ->
  exists generated,
    orders (db w') = orders (db w) ++ generated
    /\ Forall (of_customers (customers (db w))) generated
    /\ customers (db w') = customers (db w).
Proof.
  intros H.
  destruct (add_orders_generated tape fake now
              (of_customers (customers (db w))) w tt w'
              (reads_new_order_customer tape _ fake now _) H)
    as (generated & Ho & Hall).
  exists generated. split; [exact Ho|]. split; [exact Hall|].
  now apply add_orders_ok in H.
Qed.

Lemma add_orders_customers_exist_witness :
  exists generated,
    orders (db after_add_orders)
    = orders (db (world_of lonely_db)) ++ generated
    /\ Forall (of_customers (customers (db (world_of lonely_db)))) generated
    /\ customers (db after_add_orders) = customers (db (world_of lonely_db)).
Proof.
  exact (add_orders_customers_exist counting_tape demo_fake noon
           (world_of lonely_db) after_add_orders add_orders_demo_run).
Defined.

(** X3. Every date that [add_orders] generates lies in the current year up
    to now, to the second: the order date is between the whole second of
    the start of the year and the whole second of now; a shipped date is
    not before the former and at most one second after the latter, a
    delivered date at most two seconds after it. *)
Theorem add_orders_dates_within_year (tape : N -> N) (fake : Faker.t)
  (now : datetime) (w w' : World) :
  add_orders tape fake now w = Ok (tt, w') ->
  exists generated,
    orders (db w') = orders (db w) ++ generated
    /\ Forall (dates_within (Faker.year_start fake now) now) generated.
Proof.
  intros H.
  exact (add_orders_generated tape fake now _ w tt w'
           (reads_new_order_within tape _ fake now _) H).
Qed.

Lemma add_orders_dates_within_year_witness :
  exists generated,
    orders (db after_add_orders)
    = orders (db (world_of lonely_db)) ++ generated
    /\ Forall (dates_within (Faker.year_start demo_fake noon) noon) generated.
Proof.
  exact (add_orders_dates_within_year counting_tape demo_fake noon
           (world_of lonely_db) after_add_orders add_orders_demo_run).
Defined.

(** ** What [add_products] generates *)

Lemma reads_new_product_price tape d fake :
  reads d (new_product tape fake)
    (fun p => forall id, 10 <= Product.price (p id) <= 100).
Proof.
  unfold new_product.
  eapply reads_bind; [apply reads_provider|]. intros name _.
  eapply reads_bind; [apply reads_randint|]. intros price Hprice.
  apply reads_ret. intros id. exact Hprice.
Qed.

Lemma existsb_name_false (name : string) (ps : list Product.t) :
  existsb (fun p' => String.eqb (Product.name p') name) ps = false ->
  ~ In name (map Product.name ps).
Proof.
  intros E Hin. apply in_map_iff in Hin. destruct Hin as (p & Hp & Hin).
  assert (Htrue : existsb (fun p' => String.eqb (Product.name p') name) ps
                  = true).
  { apply existsb_exists. exists p. split; [exact Hin|].
    now apply String.eqb_eq. }
  congruence.
Qed.

Lemma NoDup_snoc {A} (l : list A) (x : A) :
  NoDup l -> ~ In x l -> NoDup (l ++ [x]).
Proof.
  intros Hnd Hx. apply NoDup_app; [exact Hnd | repeat constructor; intros [] |].
  intros y Hy [<-|[]]. contradiction.
Qed.

Lemma insert_all_products_rows pending :
  forall d d',
    insert_all insert_product pending d = Ok d' ->
    (NoDup (map Product.name (products d)) ->
     NoDup (map Product.name (products d')))
    /\ exists generated,
         products d' = products d ++ generated
         /\ List.length generated = List.length pending
         /\ forall P : Product.t -> Prop,
              Forall (fun p => forall id, P (p id)) pending ->
              Forall P generated.
Proof.
  induction pending as [|p pending IH]; intros d d'; cbn [insert_all].
  - intros [= <-]. split; [tauto|]. exists []. rewrite app_nil_r.
    repeat split. constructor.
  - unfold insert_product at 1.
    destruct (existsb _ _) eqn:E; [discriminate|].
    intros H. apply IH in H. cbn [products] in H.
    destruct H as (Hnames & generated & Hp & Hlen & HP). split.
    + intros Hnd. apply Hnames. rewrite map_app. cbn [map].
      apply NoDup_snoc; [exact Hnd | now apply existsb_name_false].
    + exists (p (next_id (map Product.id (products d))) :: generated).
      rewrite Hp, <- app_assoc. repeat split.
      * cbn. congruence.
      * intros P Hall. inversion Hall; subst. constructor; auto.
Qed.

Lemma add_products_rows tape fake w u w' :
  add_products tape fake w = Ok (u, w') ->
  (NoDup (map Product.name (products (db w))) ->
   NoDup (map Product.name (products (db w'))))
  /\ exists generated,
       products (db w') = products (db w) ++ generated
       /\ List.length generated = 10%nat
       /\ Forall (fun p => 10 <= Product.price p <= 100) generated.
Proof.
  unfold add_products. intros H. apply bind_ok in H.
  destruct H as (pending & w1 & Hgen & Hcommit).
  destruct (reads_replicateM (db w) 10 _ _
              (reads_new_product_price tape (db w) fake)
              w pending w1 eq_refl Hgen) as (Hdb & Hlen & Hall).
  apply commit_ok, insert_all_products_rows in Hcommit.
  rewrite Hdb in Hcommit.
  destruct Hcommit as (Hnames & generated & Hp & Hlen' & HP).
  split; [exact Hnames|]. exists generated.
  repeat split; [exact Hp | congruence | now apply HP].
Qed.

(** X4. When [add_products] completes it has appended exactly ten products
    to the product table, each with a price between 10 and 100, and has
    left the customers, the orders and the associations alone. *)
Theorem add_products_prices (tape : N -> N) (fake : Faker.t) (w w' : World) :
  add_products tape fake w = Ok (tt, w') ->
  (exists generated,
     products (db w') = products (db w) ++ generated
     /\ List.length generated = 10%nat
     /\ Forall (fun p => 10 <= Product.price p <= 100) generated)
  /\ customers (db w') = customers (db w)
  /\ orders (db w') = orders (db w)
  /\ order_product (db w') = order_product (db w).
Proof.
  intros H. split.
  - now apply add_products_rows in H.
  - apply add_products_ok in H. tauto.
Qed.

Lemma add_products_prices_witness :
  (exists generated,
     products (db after_add_products)
     = products (db (world_of empty_db)) ++ generated
     /\ List.length generated = 10%nat
     /\ Forall (fun p => 10 <= Product.price p <= 100) generated)
  /\ customers (db after_add_products) = customers (db (world_of empty_db))
  /\ orders (db after_add_products) = orders (db (world_of empty_db))
  /\ order_product (db after_add_products)
     = order_product (db (world_of empty_db)).
Proof.
  exact (add_products_prices counting_tape demo_fake (world_of empty_db)
           after_add_products add_products_demo_run).
Defined.

(** X5. [add_products] keeps product names unique: when it completes on a
    table without two products of one name, the table it leaves has none
    either (a second product of a name makes the commit raise). *)
Theorem add_products_unique_names (tape : N -> N) (fake : Faker.t)
  (w w' : World) :
  NoDup (map Product.name (products (db w))) ->
  add_products tape fake w = Ok (tt, w') ->
  NoDup (map Product.name (products (db w'))).
Proof.
  intros Hnd H. apply add_products_rows in H. now apply H.
Qed.

Lemma add_products_unique_names_witness :
  NoDup (map Product.name (products (db after_add_products))).
Proof.
  refine (add_products_unique_names counting_tape demo_fake
            (world_of empty_db) after_add_products _ add_products_demo_run).
  constructor.
Defined.

(** ** What [add_customers] keeps and when it fails *)

Lemma existsb_email_false (email : string) (cs : list Customer.t) :
  existsb (fun c' => String.eqb (Customer.email c') email) cs = false ->
  ~ In email (map Customer.email cs).
Proof.
  intros E Hin. apply in_map_iff in Hin. destruct Hin as (c & Hc & Hin).
  assert (Htrue : existsb (fun c' => String.eqb (Customer.email c') email) cs
                  = true).
  { apply existsb_exists. exists c. split; [exact Hin|].
    now apply String.eqb_eq. }
  congruence.
Qed.

Lemma insert_all_customers_emails pending :
  forall d d',
    insert_all insert_customer pending d = Ok d' ->
    NoDup (map Customer.email (customers d)) ->
    NoDup (map Customer.email (customers d')).
Proof.
  induction pending as [|c pending IH]; intros d d'; cbn [insert_all].
  - now intros [= <-].
  - unfold insert_customer at 1.
    destruct (existsb _ _) eqn:E; [discriminate|].
    intros H Hnd. apply IH in H; [exact H|]. cbn [customers].
    rewrite map_app. cbn [map].
    apply NoDup_snoc; [exact Hnd | now apply existsb_email_false].
Qed.

(** X6. [add_customers] keeps e-mail addresses unique: when it completes on
    a table without two customers of one address, the table it leaves has
    none either. *)
Theorem add_customers_unique_emails (tape : N -> N) (fake : Faker.t)
  (w w' : World) :
  NoDup (map Customer.email (customers (db w))) ->
  add_customers tape fake w = Ok (tt, w') ->
  NoDup (map Customer.email (customers (db w'))).
Proof.
  unfold add_customers. intros Hnd H. apply bind_ok in H.
  destruct H as (pending & w1 & Hgen & Hcommit).
  destruct (reads_replicateM (db w) 100 _ _ (reads_new_customer tape fake (db w))
              w pending w1 eq_refl Hgen) as (Hdb & _).
  apply commit_ok in Hcommit. rewrite Hdb in Hcommit.
  exact (insert_all_customers_emails pending _ _ Hcommit Hnd).
Qed.

Lemma add_customers_unique_emails_witness :
  NoDup (map Customer.email (customers (db after_add_customers))).
Proof.
  refine (add_customers_unique_emails counting_tape demo_fake
            (world_of empty_db) after_add_customers _ add_customers_demo_run).
  constructor.
Defined.

Lemma new_customer_run tape fake w :
  new_customer tape fake w
  = Ok (customer_drawn tape fake (rng w),
        mkWorld (db w) (rng w + 6)%N (stdout w)).
Proof.
  unfold new_customer, provider, raw, bind, ret, customer_drawn.
  cbn [db rng stdout]. do 2 f_equal. f_equal. lia.
Qed.

Lemma replicateM_new_customer tape fake n :
  forall w,
    replicateM n (new_customer tape fake) w
    = Ok (map (fun i => customer_drawn tape fake (rng w + 6 * N.of_nat i)%N)
            (seq 0 n),
          mkWorld (db w) (rng w + 6 * N.of_nat n)%N (stdout w)).
Proof.
  induction n as [|n IH]; intros w.
  - cbn [replicateM seq map]. unfold ret. destruct w as [d r s].
    cbn [db rng stdout]. do 2 f_equal. f_equal. lia.
  - cbn [replicateM]. unfold bind at 1. rewrite new_customer_run.
    unfold bind at 1. rewrite IH. unfold ret. cbn [db rng stdout].
    do 2 f_equal.
    + cbn [seq map]. f_equal; [f_equal; lia|].
      rewrite <- seq_shift, map_map. apply map_ext. intros i.
      f_equal. lia.
    + f_equal. lia.
Qed.

Lemma customer_drawn_email tape fake pos id :
  Customer.email (customer_drawn tape fake pos id)
  = Faker.email fake (tape (pos + 5)%N).
Proof. cbn. do 2 f_equal. lia. Qed.

(** The addresses of the pending customers are the drawn ones. *)
Lemma pending_emails tape fake w :
  map (fun c : Z -> Customer.t => Customer.email (c 0))
    (map (fun i => customer_drawn tape fake (rng w + 6 * N.of_nat i)%N)
       (seq 0 100))
  = drawn_emails tape fake w.
Proof.
  unfold drawn_emails. rewrite map_map. apply map_ext. intros i.
  apply customer_drawn_email.
Qed.

Lemma existsb_email_true (email : string) (cs : list Customer.t) :
  existsb (fun c' => String.eqb (Customer.email c') email) cs = true ->
  In email (map Customer.email cs).
Proof.
  intros E. apply existsb_exists in E. destruct E as (c & Hin & Heq).
  apply String.eqb_eq in Heq. rewrite <- Heq. now apply in_map.
Qed.

Section CustomerBatch.
(** A batch of pending customers whose address does not depend on the key. *)
Variable pending_email : (Z -> Customer.t) -> string.
Let keyless (c : Z -> Customer.t) : Prop :=
  forall id, Customer.email (c id) = pending_email c.

Lemma insert_all_customers_completes pending :
  forall d,
    Forall keyless pending ->
    NoDup (map pending_email pending) ->
    (forall e, In e (map pending_email pending) ->
               ~ In e (map Customer.email (customers d))) ->
    exists d', insert_all insert_customer pending d = Ok d'.
Proof.
  induction pending as [|c pending IH]; intros d Hkey Hnd Hfresh;
    cbn [insert_all].
  - now exists d.
  - inversion Hkey as [|? ? Hc Hkey']; subst.
    inversion Hnd as [|? ? Hnotin Hnd']; subst.
    unfold insert_customer at 1. rewrite Hc.
    destruct (existsb _ _) eqn:E.
    + exfalso. apply existsb_email_true in E.
      apply (Hfresh (pending_email c)); [now left | exact E].
    + apply IH; try assumption. cbn [customers].
      intros e He Hin. rewrite map_app in Hin. apply in_app_or in Hin.
      destruct Hin as [Hin|Hin].
      * apply (Hfresh e); [now right | exact Hin].
      * cbn [map In] in Hin. destruct Hin as [Hin|[]].
        rewrite Hc in Hin. subst e. contradiction.
Qed.

Lemma insert_all_customers_fresh pending :
  forall d d',
    Forall keyless pending ->
    insert_all insert_customer pending d = Ok d' ->
    NoDup (map pending_email pending)
    /\ (forall e, In e (map pending_email pending) ->
                  ~ In e (map Customer.email (customers d)))
    /\ (forall e, In e (map Customer.email (customers d)) ->
                  In e (map Customer.email (customers d'))).
Proof.
  induction pending as [|c pending IH]; intros d d' Hkey; cbn [insert_all].
  - intros [= <-]. split; [constructor|]. split; [intros e []|tauto].
  - inversion Hkey as [|? ? Hc Hkey']; subst.
    unfold insert_customer at 1. rewrite Hc.
    destruct (existsb _ _) eqn:E; [discriminate|].
    apply existsb_email_false in E.
    intros H. apply (IH _ _ Hkey') in H. cbn [customers] in H.
    destruct H as (Hnd & Hfresh & Hkept).
    assert (Hgrow : forall e,
               In e (map Customer.email (customers d)) \/ e = pending_email c ->
               In e (map Customer.email
                       (customers d
                        ++ [c (next_id (map Customer.id (customers d)))]))).
    { intros e He. rewrite map_app. apply in_or_app.
      destruct He as [He| ->]; [now left|].
      right. cbn [map]. rewrite Hc. now left. }
    split; [|split].
    + cbn [map]. constructor; [|exact Hnd].
      intros Hin. apply (Hfresh _ Hin). apply Hgrow. now right.
    + cbn [map]. intros e [<-|He]; [exact E|].
      intros Hin. apply (Hfresh _ He). apply Hgrow. now left.
    + intros e He. apply Hkept, Hgrow. now left.
Qed.
End CustomerBatch.

Lemma insert_all_customers_raise pending :
  forall d e,
    insert_all insert_customer pending d = Raise e -> e = IntegrityError.
Proof.
  induction pending as [|c pending IH]; intros d e; cbn [insert_all].
  - discriminate.
  - unfold insert_customer at 1. destruct (existsb _ _).
    + now intros [= <-].
    + apply IH.
Qed.

Lemma add_customers_commit tape fake w :
  add_customers tape fake w
  = commit insert_customer
      (map (fun i => customer_drawn tape fake (rng w + 6 * N.of_nat i)%N)
         (seq 0 100))
      (mkWorld (db w) (rng w + 6 * N.of_nat 100)%N (stdout w)).
Proof.
  unfold add_customers, bind. now rewrite replicateM_new_customer.
Qed.

Lemma drawn_keyless tape fake w :
  Forall
    (fun c : Z -> Customer.t =>
       forall id, Customer.email (c id) = Customer.email (c 0))
    (map (fun i => customer_drawn tape fake (rng w + 6 * N.of_nat i)%N)
       (seq 0 100)).
Proof.
  apply Forall_forall. intros c Hc. apply in_map_iff in Hc.
  destruct Hc as (i & <- & _). intros id. reflexivity.
Qed.

(** X7. When two of the hundred e-mail addresses that [add_customers]
    draws are the same, or one of them is taken already, the commit raises
    [IntegrityError]: there is no retry and no customer is added. *)
Theorem add_customers_collision (tape : N -> N) (fake : Faker.t)
  (w : World) :
  ~ (NoDup (drawn_emails tape fake w)
     /\ forall e, In e (drawn_emails tape fake w) ->
                  ~ In e (map Customer.email (customers (db w)))) ->
  add_customers tape fake w = Raise IntegrityError.
Proof.
  intros Hclash. rewrite add_customers_commit. unfold commit.
  cbn [db].
  destruct (insert_all insert_customer _ (db w)) as [d'|e] eqn:E.
  - exfalso. apply Hclash.
    apply (insert_all_customers_fresh
             (fun c => Customer.email (c 0)) _ _ _ (drawn_keyless tape fake w))
      in E.
    rewrite pending_emails in E. tauto.
  - apply insert_all_customers_raise in E. now subst e.
Qed.

Lemma add_customers_collision_witness :
  add_customers zero_tape demo_fake (world_of empty_db)
  = Raise IntegrityError.
Proof.
  apply (add_customers_collision zero_tape demo_fake (world_of empty_db)).
  intros [Hnd _]. vm_compute in Hnd.
  inversion Hnd as [|? ? Hnotin _]. apply Hnotin. left. reflexivity.
Defined.

Lemma all_distinct_NoDup (l : list string) :
  all_distinct l = true -> NoDup l.
Proof.
  induction l as [|x l IH]; cbn [all_distinct]; intros H; [constructor|].
  apply andb_true_iff in H. destruct H as [Hx Hl].
  constructor; [|now apply IH].
  intros Hin. apply negb_true_iff in Hx.
  assert (Htrue : existsb (String.eqb x) l = true).
  { apply existsb_exists. exists x. split; [exact Hin|apply String.eqb_refl]. }
  congruence.
Qed.

(** X8. When the hundred e-mail addresses that [add_customers] draws are
    pairwise different and none of them is taken already, [add_customers]
    completes. *)
Theorem add_customers_completes (tape : N -> N) (fake : Faker.t)
  (w : World) :
  NoDup (drawn_emails tape fake w) ->
  (forall e, In e (drawn_emails tape fake w) ->
             ~ In e (map Customer.email (customers (db w)))) ->
  exists w', add_customers tape fake w = Ok (tt, w').
Proof.
  intros Hnd Hfresh. rewrite add_customers_commit. unfold commit. cbn [db].
  destruct (insert_all_customers_completes
              (fun c => Customer.email (c 0)) _ (db w)
              (drawn_keyless tape fake w)) as [d' ->].
  - now rewrite pending_emails.
  - now rewrite pending_emails.
  - eexists. reflexivity.
Qed.

Lemma add_customers_completes_witness :
  exists w',
    add_customers counting_tape demo_fake (world_of empty_db) = Ok (tt, w').
Proof.
  apply (add_customers_completes counting_tape demo_fake (world_of empty_db)).
  - apply all_distinct_NoDup. vm_compute. reflexivity.
  - intros e _ [].
Defined.

(** ** Steps run out of order *)

Lemma replicateM_raise {A} (m : M A) (n : nat) w e :
  m w = Raise e -> replicateM (S n) m w = Raise e.
Proof. intros H. cbn [replicateM]. unfold bind. now rewrite H. Qed.

(** X9. Run before any customer exists, [add_orders] raises [IndexError]
    (the choice of a customer among none) and adds no order. *)
Theorem add_orders_without_customers (tape : N -> N) (fake : Faker.t)
  (now : datetime) (w : World) :
  customers (db w) = [] ->
  add_orders tape fake now w = Raise IndexError.
Proof.
  intros Hnone. unfold add_orders, bind at 1, query at 1.
  unfold bind at 1. rewrite Hnone.
  change 1000%nat with (S 999).
  now rewrite (replicateM_raise (new_order tape fake now []) 999 w IndexError).
Qed.

Lemma add_orders_without_customers_witness :
  add_orders counting_tape demo_fake noon (world_of empty_db)
  = Raise IndexError.
Proof.
  apply (add_orders_without_customers counting_tape demo_fake noon
           (world_of empty_db)).
  reflexivity.
Defined.

Lemma link_order_without_products tape o w :
  link_order tape [] o w = Raise ValueError.
Proof.
  unfold link_order, random_randint.
  change (3 <? 1) with false. cbv iota.
  unfold bind at 1. unfold bind at 1. unfold raw, ret.
  unfold bind at 1. unfold random_sample. cbn [List.length Z.of_nat].
  replace (0 <? 1 + Z.of_N (tape (rng w)) mod (3 - 1 + 1)) with true.
  - now rewrite orb_true_r.
  - symmetry. apply Z.ltb_lt.
    pose proof (Z.mod_pos_bound (Z.of_N (tape (rng w))) (3 - 1 + 1)). lia.
Qed.

(** X10. Run on orders but no product, [add_order_products] raises
    [ValueError] (a sample of one to three among none) and links nothing. *)
Theorem add_order_products_without_products (tape : N -> N) (w : World) :
  products (db w) = [] ->
  orders (db w) <> [] ->
  add_order_products tape w = Raise ValueError.
Proof.
  intros Hnone Horders.
  unfold add_order_products, bind at 1, query at 1.
  unfold bind at 1, query at 1. rewrite Hnone.
  destruct (orders (db w)) as [|o os]; [congruence|].
  cbn [mapM]. unfold bind at 1. unfold bind at 1.
  now rewrite link_order_without_products.
Qed.

Lemma add_order_products_without_products_witness :
  add_order_products counting_tape
    (world_of (mkDatabase [alice] [no_order 1 noon 1] [] []))
  = Raise ValueError.
Proof.
  apply (add_order_products_without_products counting_tape
           (world_of (mkDatabase [alice] [no_order 1 noon 1] [] []))).
  - reflexivity.
  - discriminate.
Defined.

(** ** The association table after [add_order_products] *)

Lemma linked_refers d o rows :
  In o (orders d) -> linked d o rows -> Forall (refers d) rows.
Proof.
  intros Ho (chosen & rest & _ & Hperm & ->). apply Forall_forall.
  intros r Hr. apply in_map_iff in Hr. destruct Hr as (p & <- & Hp).
  apply filter_In in Hp. destruct Hp as [Hp _]. split; cbn.
  - now apply in_map.
  - apply in_map. apply (Permutation_in _ (Permutation_sym Hperm)).
    apply in_or_app. now left.
Qed.

Lemma pending_refer d os pending :
  incl os (orders d) ->
  Forall2 (linked d) os pending ->
  Forall (refers d) (List.concat pending).
Proof.
  intros Hincl Hall.
  induction Hall as [|o rows os pending Hrows Hrest IH]; [constructor|].
  cbn [List.concat]. apply Forall_app. split.
  - apply (linked_refers d o rows); [apply Hincl; now left | exact Hrows].
  - apply IH. intros o' Ho'. apply Hincl. now right.
Qed.

(** X11. Every association row that [add_order_products] adds names an
    order of the order table and a product of the product table. *)
Theorem add_order_products_refer (tape : N -> N) (w w' : World) :
  add_order_products tape w = Ok (tt, w') ->
  exists rows,
    order_product (db w') = order_product (db w) ++ rows
    /\ Forall (refers (db w')) rows.
Proof.
  intros H. apply add_order_products_ok in H.
  destruct H as (_ & Ho & Hp & pending & Hop & Hall).
  exists (List.concat pending). split; [exact Hop|].
  assert (Hrefer : Forall (refers (db w)) (List.concat pending))
    by (apply (pending_refer (db w) (orders (db w))); [apply incl_refl|exact Hall]).
  eapply Forall_impl; [|exact Hrefer].
  intros r [H1 H2]. unfold refers. now rewrite Ho, Hp.
Qed.

Lemma add_order_products_refer_witness :
  exists rows,
    order_product (db after_add_order_products)
    = order_product (db (world_of unlinked_db)) ++ rows
    /\ Forall (refers (db after_add_order_products)) rows.
Proof.
  exact (add_order_products_refer counting_tape (world_of unlinked_db)
           after_add_order_products add_order_products_demo_run).
Defined.

Lemma existsb_row_false (r : OrderProduct.t) (rows : list OrderProduct.t) :
  existsb (fun r' =>
             (OrderProduct.order_id r' =? OrderProduct.order_id r)
             && (OrderProduct.product_id r' =? OrderProduct.product_id r))
    rows = false ->
  ~ In r rows.
Proof.
  intros E Hin.
  assert (Htrue : existsb (fun r' =>
             (OrderProduct.order_id r' =? OrderProduct.order_id r)
             && (OrderProduct.product_id r' =? OrderProduct.product_id r))
            rows = true).
  { apply existsb_exists. exists r. split; [exact Hin|].
    now rewrite !Z.eqb_refl. }
  congruence.
Qed.

Lemma insert_all_order_products_NoDup rows :
  forall d d',
    insert_all insert_order_product rows d = Ok d' ->
    NoDup (order_product d) -> NoDup (order_product d').
Proof.
  induction rows as [|r rows IH]; intros d d'; cbn [insert_all].
  - now intros [= <-].
  - unfold insert_order_product at 1.
    destruct (existsb _ _) eqn:E; [discriminate|].
    intros H Hnd. apply IH in H; [exact H|]. cbn [order_product].
    apply NoDup_snoc; [exact Hnd | now apply existsb_row_false].
Qed.

(** X12. [add_order_products] keeps the pairs of the association table
    unique: when it completes on a table without a repeated pair of order
    and product, the table it leaves has none either. *)
Theorem add_order_products_unique_pairs (tape : N -> N) (w w' : World) :
  NoDup (order_product (db w)) ->
  add_order_products tape w = Ok (tt, w') ->
  NoDup (order_product (db w')).
Proof.
  unfold add_order_products. intros Hnd H. apply bind_ok in H.
  destruct H as (os & w0 & Hq & H). apply query_ok in Hq.
  destruct Hq as [-> ->]. apply bind_ok in H.
  destruct H as (ps & w0 & Hq & H). apply query_ok in Hq.
  destruct Hq as [-> ->]. apply bind_ok in H.
  destruct H as (pending & w1 & Hgen & Hcommit).
  destruct (reads_mapM (db w) _ (linked (db w)) (orders (db w))
              (reads_link_order tape (db w))
              w pending w1 eq_refl Hgen) as (Hdb & _).
  apply commit_ok in Hcommit. rewrite Hdb in Hcommit.
  exact (insert_all_order_products_NoDup _ _ _ Hcommit Hnd).
Qed.

Lemma add_order_products_unique_pairs_witness :
  NoDup (order_product (db after_add_order_products)).
Proof.
  refine (add_order_products_unique_pairs counting_tape
            (world_of unlinked_db) after_add_order_products _
            add_order_products_demo_run).
  constructor.
Defined.

(** ** The database after the whole generator *)

Lemma create_random_data_steps tape fake now w u w' :
  create_random_data tape fake now w = Ok (u, w') ->
  exists w1 w2 w3,
    add_customers tape fake w = Ok (tt, w1)
    /\ add_orders tape fake now w1 = Ok (tt, w2)
    /\ add_products tape fake w2 = Ok (tt, w3)
    /\ add_order_products tape w3 = Ok (u, w').
Proof.
  unfold create_random_data, create_all. intros H.
  apply bind_ok in H. destruct H as ([] & w0 & [= <-] & H).
  apply bind_ok in H. destruct H as ([] & w1 & H1 & H).
  apply bind_ok in H. destruct H as ([] & w2 & H2 & H).
  apply bind_ok in H. destruct H as ([] & w3 & H3 & H4).
  exists w1, w2, w3. exact (conj H1 (conj H2 (conj H3 H4))).
Qed.

(** X13. The generator keeps the primary keys unique: when
    [create_random_data] completes on a database whose customer, order and
    product keys are unique, so are the keys of the database it leaves. *)
Theorem create_random_data_keys (tape : N -> N) (fake : Faker.t)
  (now : datetime) (w w' : World) :
  primary_keys_ok (db w) ->
  create_random_data tape fake now w = Ok (tt, w') ->
  primary_keys_ok (db w').
Proof.
  intros (Hc & Ho & Hp) H. apply create_random_data_steps in H.
  destruct H as (w1 & w2 & w3 & H1 & H2 & H3 & H4).
  apply add_customers_ok in H1. destruct H1 as (_ & Ho1 & Hp1 & _ & Hk1).
  apply add_orders_ok in H2. destruct H2 as (Hc2 & Hp2 & _ & Hk2 & _).
  apply add_products_ok in H3. destruct H3 as (Hc3 & Ho3 & _ & Hk3).
  apply add_order_products_ok in H4. destruct H4 as (Hc4 & Ho4 & Hp4 & _).
  repeat split.
  - rewrite Hc4, Hc3, Hc2. now apply Hk1.
  - rewrite Ho4, Ho3. apply Hk2. now rewrite Ho1.
  - rewrite Hp4. apply Hk3. now rewrite Hp2, Hp1.
Qed.

Lemma create_random_data_keys_witness :
  primary_keys_ok (db after_create_random_data).
Proof.
  refine (create_random_data_keys counting_tape demo_fake noon
            (world_of empty_db) after_create_random_data _
            create_random_data_demo_run).
  repeat split; constructor.
Defined.

Lemma linked_count d o rows :
  order_product d = [] -> linked d o rows ->
  (1 <= List.length rows <= 3)%nat.
Proof.
  intros Hempty (chosen & rest & Hlen & _ & ->).
  assert (Hbefore : Order_products d o = []).
  { unfold Order_products. now rewrite Hempty. }
  rewrite Hbefore, filter_all by reflexivity. now rewrite length_map.
Qed.

Lemma pending_count d os pending :
  order_product d = [] ->
  Forall2 (linked d) os pending ->
  (List.length os <= List.length (List.concat pending)
   <= 3 * List.length os)%nat.
Proof.
  intros Hempty Hall.
  induction Hall as [|o rows os pending Hrows Hrest IH]; [cbn; lia|].
  cbn [List.concat List.length]. rewrite length_app.
  pose proof (linked_count d o rows Hempty Hrows). lia.
Qed.

(** X14. When [create_random_data] completes on an empty database it
    leaves 100 customers, 1000 orders, 10 products and between 1000 and
    3000 association rows. *)
Theorem create_random_data_sizes (tape : N -> N) (fake : Faker.t)
  (now : datetime) (w w' : World) :
  db w = empty_db ->
  create_random_data tape fake now w = Ok (tt, w') ->
  List.length (customers (db w')) = 100%nat
  /\ List.length (orders (db w')) = 1000%nat
  /\ List.length (products (db w')) = 10%nat
  /\ (1000 <= List.length (order_product (db w')) <= 3000)%nat.
Proof.
  intros Hempty H. apply create_random_data_steps in H.
  destruct H as (w1 & w2 & w3 & H1 & H2 & H3 & H4).
  apply add_customers_ok in H1. destruct H1 as (Hn1 & Ho1 & Hp1 & Hop1 & _).
  apply add_orders_ok in H2.
  destruct H2 as (Hc2 & Hp2 & Hop2 & _ & generated & Ho2 & Hn2 & _).
  pose proof (add_products_ok _ _ _ _ _ H3) as (Hc3 & Ho3 & Hop3 & _).
  apply add_products_rows in H3.
  destruct H3 as (_ & made & Hp3 & Hn3 & _).
  apply add_order_products_ok in H4.
  destruct H4 as (Hc4 & Ho4 & Hp4 & pending & Hop4 & Hall).
  rewrite Hempty in *. cbn in Hn1, Ho1, Hp1, Hop1.
  assert (Hnone : order_product (db w3) = []) by congruence.
  assert (Horders : List.length (orders (db w3)) = 1000%nat).
  { rewrite Ho3, Ho2, Ho1. exact Hn2. }
  pose proof (pending_count (db w3) _ _ Hnone Hall) as Hcount.
  split; [|split; [|split; [|split]]].
  - rewrite Hc4, Hc3, Hc2. exact Hn1.
  - now rewrite Ho4.
  - rewrite Hp4, Hp3, Hp2, Hp1. exact Hn3.
  - rewrite Hop4, Hnone. cbn [app]. lia.
  - rewrite Hop4, Hnone. cbn [app]. lia.
Qed.

Lemma create_random_data_sizes_witness :
  List.length (customers (db after_create_random_data)) = 100%nat
  /\ List.length (orders (db after_create_random_data)) = 1000%nat
  /\ List.length (products (db after_create_random_data)) = 10%nat
  /\ (1000 <= List.length (order_product (db after_create_random_data))
      <= 3000)%nat.
Proof.
  exact (create_random_data_sizes counting_tape demo_fake noon
           (world_of empty_db) after_create_random_data eq_refl
           create_random_data_demo_run).
Defined.

(** X15. When [create_random_data] completes on an empty database, every
    order of the database holds between one and three products, no product
    twice. *)
Theorem create_random_data_every_order_linked (tape : N -> N)
  (fake : Faker.t) (now : datetime) (w w' : World) :
  db w = empty_db ->
  create_random_data tape fake now w = Ok (tt, w') ->
  Forall
    (fun o =>
       (1 <= List.length (Order_products (db w') o) <= 3)%nat
       /\ NoDup (map Product.id (Order_products (db w') o)))
    (orders (db w')).
Proof.
  intros Hempty H. apply Forall_forall. intros o Ho.
  exact (create_random_data_links tape fake now w w' Hempty H o Ho).
Qed.

Lemma create_random_data_every_order_linked_witness :
  Forall
    (fun o =>
       (1 <= List.length (Order_products (db after_create_random_data) o)
        <= 3)%nat
       /\ NoDup
            (map Product.id (Order_products (db after_create_random_data) o)))
    (orders (db after_create_random_data)).
Proof.
  exact (create_random_data_every_order_linked counting_tape demo_fake noon
           (world_of empty_db) after_create_random_data eq_refl
           create_random_data_demo_run).
Defined.

(** ** The queries on generated data *)

Lemma find_key_some {A} (key : A -> Z) (k : Z) (l : list A) :
  In k (map key l) -> exists a, find (fun a => key a =? k) l = Some a.
Proof.
  induction l as [|a l IH]; [contradiction|]. cbn [map In find].
  destruct (Z.eqb_spec (key a) k) as [_|Hne].
  - intros _. now exists a.
  - intros [Hk|Hin]; [contradiction | now apply IH].
Qed.

Lemma flat_map_nil {A B} (l : list A) :
  flat_map (fun _ : A => @nil B) l = [].
Proof. induction l as [|a l IH]; [reflexivity | exact IH]. Qed.

Lemma flat_map_app_perm {A B} (f g : A -> list B) (l : list A) :
  Permutation (flat_map (fun a => f a ++ g a) l)
    (flat_map f l ++ flat_map g l).
Proof.
  induction l as [|a l IH]; [constructor|]. cbn [flat_map].
  rewrite <- !app_assoc. apply Permutation_app_head.
  eapply perm_trans; [apply Permutation_app_head, IH|].
  rewrite !app_assoc. apply Permutation_app_tail, Permutation_app_comm.
Qed.

Lemma flat_map_none_but_one {A B} (key : A -> Z) (k : Z) (b : B)
  (l : list A) :
  ~ In k (map key l) ->
  flat_map (fun a => if k =? key a then [b] else []) l = [].
Proof.
  induction l as [|a l IH]; [reflexivity|].
  cbn [map flat_map In]. intros Hnotin.
  destruct (Z.eqb_spec k (key a)) as [E|_]; [exfalso; auto|].
  cbn [app]. apply IH. auto.
Qed.

(** Under a key without duplicates one row, and only one, has a key that is
    there. *)
Lemma flat_map_one {A B} (key : A -> Z) (k : Z) (b : B) (l : list A) :
  NoDup (map key l) ->
  In k (map key l) ->
  flat_map (fun a => if k =? key a then [b] else []) l = [b].
Proof.
  induction l as [|a l IH]; [contradiction|].
  cbn [map flat_map]. intros Hnd Hin.
  inversion Hnd as [|? ? Hnotin Hnd']; subst.
  destruct (Z.eqb_spec k (key a)) as [->|Hne].
  - now rewrite (flat_map_none_but_one key (key a) b l Hnotin).
  - cbn [app]. apply IH; [exact Hnd'|].
    destruct Hin as [E|Hin]; [congruence | exact Hin].
Qed.

(** Under unique customer keys, listing the orders customer by customer
    lists every order of an existing customer once, and no other row. *)
Lemma orders_by_customer_perm (cs : list Customer.t) (l : list Order.t) :
  NoDup (map Customer.id cs) ->
  Forall (of_customers cs) l ->
  Permutation
    (flat_map
       (fun c => filter (fun o => Order.customer_id o =? Customer.id c) l)
       cs)
    l.
Proof.
  intros Hnd. induction 1 as [|o l Ho Hl IH].
  - cbn [filter]. rewrite flat_map_nil. constructor.
  - eapply perm_trans;
      [|apply (perm_skip o); exact IH].
    eapply perm_trans.
    + erewrite flat_map_ext.
      * apply (flat_map_app_perm
                 (fun c =>
                    if Order.customer_id o =? Customer.id c then [o] else [])
                 (fun c =>
                    filter
                      (fun o => Order.customer_id o =? Customer.id c) l)).
      * intros c. cbn [filter].
        destruct (Order.customer_id o =? Customer.id c); reflexivity.
    + rewrite (flat_map_one Customer.id (Order.customer_id o) o cs Hnd Ho).
      apply Permutation_refl.
Qed.

(** The listings of the customers whose identifiers fit in 64 bits. *)
Lemma orders_by_query_listings (d : Database) (cs : list Customer.t) :
  Forall (fun c => in_int64 (Customer.id c) = true) cs ->
  Forall2
    (fun c rows => orders_by_query (Customer.id c) d = Ok rows)
    cs
    (map
       (fun c =>
          filter (fun o => Order.customer_id o =? Customer.id c) (orders d))
       cs).
Proof.
  induction 1 as [|c cs Hc Hcs IH]; cbn [map]; constructor; [|exact IH].
  unfold orders_by_query. now rewrite Hc.
Qed.

(** X16. After [add_orders], listing the orders customer by customer with
    the query of [get_orders_by] lists every order exactly once: on unique
    customer keys of 64 bits, when the orders that were there belong to
    customers of the table, the query is answered for every customer and
    the listings put end to end are a rearrangement of the order table. *)
Theorem add_orders_listed_by_customer (tape : N -> N) (fake : Faker.t)
  (now : datetime) (w w' : World) :
  NoDup (map Customer.id (customers (db w))) ->
  Forall (fun c => in_int64 (Customer.id c) = true) (customers (db w)) ->
  Forall (of_customers (customers (db w))) (orders (db w)) ->
  add_orders tape fake now w = Ok (tt, w') ->
  exists listings,
    Forall2
      (fun c rows => orders_by_query (Customer.id c) (db w') = Ok rows)
      (customers (db w')) listings
    /\ Permutation (List.concat listings) (orders (db w')).
Proof.
  intros Hnd Hfit Hold H.
  destruct (add_orders_generated tape fake now
              (of_customers (customers (db w))) w tt w'
              (reads_new_order_customer tape _ fake now _) H)
    as (generated & Ho & Hnew).
  apply add_orders_ok in H. destruct H as (Hc & _).
  eexists. split.
  - apply orders_by_query_listings. rewrite Hc. exact Hfit.
  - rewrite <- flat_map_concat_map.
    apply orders_by_customer_perm; rewrite Hc; [exact Hnd|].
    rewrite Ho. apply Forall_app. now split.
Qed.

Lemma add_orders_listed_by_customer_witness :
  exists listings,
    Forall2
      (fun c rows =>
         orders_by_query (Customer.id c) (db after_add_orders) = Ok rows)
      (customers (db after_add_orders)) listings
    /\ Permutation (List.concat listings) (orders (db after_add_orders)).
Proof.
  refine (add_orders_listed_by_customer counting_tape demo_fake noon
            (world_of lonely_db) after_add_orders _ _ _ add_orders_demo_run).
  - repeat constructor. intros [].
  - repeat constructor.
  - constructor.
Defined.

Lemma pending_not_delivered (d : Database) :
  Forall
    (fun o => Order.shipped_date o = None -> Order.delivered_date o = None)
    (orders d) ->
  Forall (fun o => Order.delivered_date o = None) (pending_orders_query d).
Proof.
  intros Hall. apply Forall_forall. intros o Ho.
  apply (Permutation_in _ (order_by_desc_perm _ _)), filter_In in Ho.
  destruct Ho as [Ho Hpending]. apply is_none_true in Hpending.
  rewrite Forall_forall in Hall. now apply Hall.
Qed.

(** X17. After [add_orders], no order that [get_pending_orders] selects has
    a delivered date, provided the orders that were there had their dates
    in order: a generated order is delivered only once it is shipped. *)
Theorem add_orders_pending_not_delivered (tape : N -> N) (fake : Faker.t)
  (now : datetime) (w w' : World) :
  Forall dates_in_order (orders (db w)) ->
  add_orders tape fake now w = Ok (tt, w') ->
  Forall (fun o => Order.delivered_date o = None)
    (pending_orders_query (db w')).
Proof.
  intros Hold H. apply add_orders_ok in H.
  destruct H as (_ & _ & _ & _ & generated & Ho & _ & Hnew).
  apply pending_not_delivered. rewrite Ho. apply Forall_app. split.
  - eapply Forall_impl; [|exact Hold]. intros o [Hdelivered _] Hpending.
    destruct (Order.delivered_date o) as [delivered|]; [|reflexivity].
    destruct (Hdelivered delivered eq_refl) as (shipped & Hshipped & _).
    congruence.
  - eapply Forall_impl; [|exact Hnew]. intros o [Hdelivered _] Hpending.
    destruct (Order.delivered_date o) as [delivered|]; [|reflexivity].
    destruct (Hdelivered delivered eq_refl) as (shipped & Hshipped & _).
    congruence.
Qed.

Lemma add_orders_pending_not_delivered_witness :
  Forall (fun o => Order.delivered_date o = None)
    (pending_orders_query (db after_add_orders)).
Proof.
  refine (add_orders_pending_not_delivered counting_tape demo_fake noon
            (world_of lonely_db) after_add_orders _ add_orders_demo_run).
  constructor.
Defined.

Lemma listed_coupons (d : Database) :
  Forall known_coupon (orders d) ->
  Forall
    (fun o =>
       Order.coupon_code o = Some "50OFF"%string
       \/ Order.coupon_code o = Some "BUYONEGETONE"%string)
    (orders_with_code_query d).
Proof.
  intros Hall. apply Forall_forall. intros o Ho.
  unfold orders_with_code_query in Ho. rewrite !filter_In in Ho.
  destruct Ho as ((Ho & _) & Hne). rewrite Forall_forall in Hall.
  destruct (Hall o Ho) as [E|[E|[E|E]]]; rewrite E in *; cbn in Hne;
    try discriminate; auto.
Qed.

(** X18. After [add_orders], the only coupon codes that [orders_with_code]
    lists are "50OFF" and "BUYONEGETONE", provided the orders that were
    there carried no other code than the three of the generator. *)
Theorem add_orders_listed_coupons (tape : N -> N) (fake : Faker.t)
  (now : datetime) (w w' : World) :
  Forall known_coupon (orders (db w)) ->
  add_orders tape fake now w = Ok (tt, w') ->
  Forall
    (fun o =>
       Order.coupon_code o = Some "50OFF"%string
       \/ Order.coupon_code o = Some "BUYONEGETONE"%string)
    (orders_with_code_query (db w')).
Proof.
  intros Hold H.
  destruct (add_orders_generated tape fake now known_coupon w tt w'
              (reads_new_order_coupon tape _ fake now _) H)
    as (generated & Ho & Hnew).
  apply listed_coupons. rewrite Ho. apply Forall_app. now split.
Qed.

Lemma add_orders_listed_coupons_witness :
  Forall
    (fun o =>
       Order.coupon_code o = Some "50OFF"%string
       \/ Order.coupon_code o = Some "BUYONEGETONE"%string)
    (orders_with_code_query (db after_add_orders)).
Proof.
  refine (add_orders_listed_coupons counting_tape demo_fake noon
            (world_of lonely_db) after_add_orders _ add_orders_demo_run).
  constructor.
Defined.

Lemma filter_split_perm {A} (p : A -> bool) (l : list A) :
  Permutation (filter p l ++ filter (fun a => negb (p a)) l) l.
Proof.
  induction l as [|a l IH]; [constructor|]. cbn [filter].
  destruct (p a); cbn [negb app].
  - now apply perm_skip.
  - eapply perm_trans; [apply Permutation_sym, Permutation_middle|].
    now apply perm_skip.
Qed.

Lemma filter_filter {A} (p : A -> bool) (l : list A) :
  filter p (filter p l) = filter p l.
Proof.
  induction l as [|a l IH]; [reflexivity|]. cbn [filter].
  destruct (p a) eqn:E; [|exact IH]. cbn [filter]. rewrite E. now rewrite IH.
Qed.

(** X19. Every order is selected either by [get_pending_orders] or for the
    average of [average_fulfillment_time], never both: the pending orders
    and the shipped orders put together are a rearrangement of the order
    table, no order is in both, the average over the whole table is the
    average over the shipped orders, and the pending orders alone have no
    average. *)
Theorem pending_or_fulfilled (d : Database) :
  Permutation (pending_orders_query d ++ shipped_orders d) (orders d)
  /\ (forall o, In o (pending_orders_query d) -> ~ In o (shipped_orders d))
  /\ average_fulfillment_time_query d
     = average_fulfillment_time_query
         (mkDatabase (customers d) (shipped_orders d) (products d)
            (order_product d))
  /\ average_fulfillment_time_query
       (mkDatabase (customers d) (pending_orders_query d) (products d)
          (order_product d))
     = None.
Proof.
  split; [|split; [|split]].
  - unfold pending_orders_query, shipped_orders.
    eapply perm_trans;
      [apply Permutation_app_tail, order_by_desc_perm|].
    apply filter_split_perm.
  - intros o Hpending Hshipped. unfold shipped_orders in Hshipped.
    apply (Permutation_in _ (order_by_desc_perm _ _)), filter_In in Hpending.
    apply filter_In in Hshipped.
    destruct Hpending as [_ E]. destruct Hshipped as [_ E'].
    rewrite E in E'. discriminate.
  - unfold average_fulfillment_time_query, shipped_orders. cbn [orders].
    now rewrite filter_filter.
  - unfold average_fulfillment_time_query. cbn [orders].
    rewrite filter_none; [reflexivity|].
    intros o Ho.
    apply (Permutation_in _ (order_by_desc_perm _ _)), filter_In in Ho.
    destruct Ho as [_ E]. now rewrite E.
Qed.

(** ** How the results move with the parameters *)

Lemma zsum_filter_mono {A} (g : A -> Z) (p q : A -> bool) (l : list A) :
  (forall a, In a l -> 0 <= g a) ->
  (forall a, In a l -> p a = true -> q a = true) ->
  zsum g (filter p l) <= zsum g (filter q l).
Proof.
  induction l as [|a l IH]; intros Hpos Hpq; [reflexivity|].
  assert (IH' : zsum g (filter p l) <= zsum g (filter q l)).
  { apply IH; intros b Hb; [apply Hpos | apply Hpq]; now right. }
  pose proof (Hpos a (or_introl eq_refl)) as Ha.
  pose proof (Hpq a (or_introl eq_refl)) as Hq.
  cbn [filter]. destruct (p a).
  - rewrite Hq by reflexivity. cbn [zsum]. lia.
  - destruct (q a); cbn [zsum]; lia.
Qed.

Lemma sum_from_ok (l : list Z) :
  forall total s,
    sum_from total l = Ok s -> s = total + zsum (fun z => z) l.
Proof.
  induction l as [|z l IH]; intros total s; cbn [sum_from zsum].
  - intros [= <-]. lia.
  - destruct (in_int64 (total + z)); [|discriminate].
    intros H. apply IH in H. lia.
Qed.

Lemma sql_sum_some (l : list Z) (total : Z) :
  sql_sum l = Ok (Some total) ->
  l <> [] /\ total = zsum (fun z => z) l.
Proof.
  destruct l as [|z l]; [discriminate|]. unfold sql_sum.
  destruct (sum_from 0 (z :: l)) as [s|e] eqn:E; [|discriminate].
  intros [= <-]. apply sum_from_ok in E.
  split; [discriminate | exact E].
Qed.

Lemma revenue_cutoff_inv (now : datetime) (x_days : Z) (cutoff : datetime) :
  revenue_cutoff now x_days = Ok cutoff ->
  cutoff_in_range now x_days /\ cutoff = days_before now x_days.
Proof.
  unfold revenue_cutoff, timedelta_days.
  destruct (Z.leb_spec (Z.abs x_days) 999999999) as [Hdays|]; [|discriminate].
  unfold datetime_sub. fold (days_before now x_days).
  destruct (Z.leb_spec datetime_min (days_before now x_days)) as [Hmin|];
    [|discriminate].
  destruct (Z.leb_spec (days_before now x_days) datetime_max) as [Hmax|];
    [|discriminate].
  intros [= <-]. split; [|reflexivity].
  split; [exact Hdays | split; assumption].
Qed.

Lemma zsum_abs_of_nonneg {A} (f : A -> Z) (l : list A) :
  (forall a, In a l -> 0 <= f a) ->
  zsum Z.abs (map f l) = zsum f l.
Proof.
  intros H. rewrite zsum_map. apply zsum_ext. intros a Ha.
  apply Z.abs_eq. now apply H.
Qed.

(** X20. With no negative price, a longer window never lowers the revenue:
    when [revenue_in_last_x_days] has a revenue for x days, it has one at
    least as large for any y >= x days for which now minus y days is a date
    that Python can hold and the prices of the rows that count add up
    within 64 bits. *)
Theorem revenue_grows_with_window (now : datetime) (x y : Z) (d : Database)
  (revenue : Z) :
  x <= y ->
  cutoff_in_range now y ->
  Forall (fun p => 0 <= Product.price p) (products d) ->
  zsum (fun row => Product.price (fst (fst row)))
    (revenue_rows (days_before now y) d)
  <= 9223372036854775807 ->
  revenue_query now x d = Ok (Some revenue) ->
  exists revenue',
    revenue_query now y d = Ok (Some revenue') /\ revenue <= revenue'.
Proof.
  intros Hxy Hrange Hprices Hfit H. unfold revenue_query in *.
  destruct (revenue_cutoff now x) as [cutoff|] eqn:Ex; [|discriminate].
  apply revenue_cutoff_inv in Ex. destruct Ex as [_ ->].
  rewrite (revenue_cutoff_ok now y Hrange).
  apply sql_sum_some in H. destruct H as [Hne ->].
  unfold revenue_rows in *.
  set (rows := join _ (join _ (products d) (order_product d)) (orders d))
    in *.
  assert (Hpos : forall row,
             In row rows -> 0 <= Product.price (fst (fst row))).
  { intros [[p r] o] Hin. cbn [fst]. unfold rows in Hin.
    apply in_join in Hin. destruct Hin as (Hin & _).
    apply in_join in Hin. destruct Hin as (Hp & _).
    rewrite Forall_forall in Hprices. now apply Hprices. }
  assert (Hwider : forall row,
             In row rows ->
             (Order.order_date (snd row) >? days_before now x) = true ->
             (Order.order_date (snd row) >? days_before now y) = true).
  { intros row _ Hrow. unfold days_before in *.
    apply Z.gtb_lt in Hrow. apply Z.gtb_lt. lia. }
  rewrite sql_sum_fits.
  2:{ rewrite zsum_abs_of_nonneg; [exact Hfit|].
      intros row Hrow. apply filter_In in Hrow. now apply Hpos. }
  destruct (filter _ rows) as [|row rest] eqn:E in Hne; [cbn [map] in Hne; congruence|].
  assert (Hin : In row (filter
                          (fun row => Order.order_date (snd row)
                                      >? days_before now x) rows))
    by (rewrite E; now left).
  apply filter_In in Hin. destruct Hin as [Hin Hrow].
  assert (Hin' : In row (filter
                           (fun row => Order.order_date (snd row)
                                       >? days_before now y) rows))
    by (apply filter_In; split; [exact Hin | now apply Hwider]).
  exists (zsum (fun z => z)
            (map (fun row => Product.price (fst (fst row)))
               (filter
                  (fun row => Order.order_date (snd row)
                              >? days_before now y) rows))).
  split.
  - unfold sum_or_null.
    destruct (map _ (filter _ rows)) eqn:Em; [|reflexivity].
    apply map_eq_nil in Em. rewrite Em in Hin'. contradiction.
  - rewrite !zsum_map. now apply zsum_filter_mono.
Qed.

Lemma revenue_grows_with_window_witness :
  exists revenue',
    revenue_query noon 30 (one_order_db (noon - of_seconds 3600) 10 20)
    = Ok (Some revenue')
    /\ 30 <= revenue'.
Proof.
  refine (revenue_grows_with_window noon 1 30
            (one_order_db (noon - of_seconds 3600) 10 20) 30 _ _ _ _ _).
  - lia.
  - vm_compute. intuition discriminate.
  - repeat constructor; cbn; lia.
  - vm_compute. discriminate.
  - vm_compute. reflexivity.
Defined.

(** ** Parameters out of range *)

(** X26. When now minus x days is no date that Python can hold (more than
    999999999 days, or a date outside the years 1 to 9999),
    [revenue_in_last_x_days] raises [OverflowError] and prints no
    revenue. *)
Theorem revenue_window_out_of_range (now : datetime) (x_days : Z)
  (w : World) :
  ~ cutoff_in_range now x_days ->
  revenue_in_last_x_days now x_days w = Raise OverflowError.
Proof.
  intros H. apply revenue_raise. unfold revenue_query.
  now rewrite (revenue_cutoff_raise now x_days H).
Qed.

Lemma revenue_window_out_of_range_witness :
  revenue_in_last_x_days noon 1000000 (world_of (one_order_db noon 10 20))
  = Raise OverflowError.
Proof.
  refine (revenue_window_out_of_range noon 1000000
            (world_of (one_order_db noon 10 20)) _).
  intros [_ [H _]]. vm_compute in H. apply H. reflexivity.
Defined.

(** X27. A customer identifier that does not fit in 64 bits cannot be bound
    to the statement: [get_orders_by] raises [OverflowError]. *)
Theorem get_orders_by_out_of_range (customer_id : Z) (w : World) :
  in_int64 customer_id = false ->
  get_orders_by customer_id w = Raise OverflowError.
Proof.
  intros H. apply get_orders_by_raise. unfold orders_by_query.
  now rewrite H.
Qed.

Lemma get_orders_by_out_of_range_witness :
  get_orders_by 9223372036854775808 (world_of (one_order_db noon 10 20))
  = Raise OverflowError.
Proof.
  refine (get_orders_by_out_of_range 9223372036854775808
            (world_of (one_order_db noon 10 20)) _).
  reflexivity.
Defined.

(** ** Steps that cannot fail, on the example databases *)

Lemma add_orders_completes_witness :
  exists w',
    add_orders counting_tape demo_fake noon (world_of lonely_db)
    = Ok (tt, w').
Proof.
  apply (add_orders_completes counting_tape demo_fake noon
           (world_of lonely_db)).
  - discriminate.
  - vm_compute. discriminate.
Defined.

Lemma add_order_products_completes_witness :
  exists w',
    add_order_products counting_tape (world_of unlinked_db) = Ok (tt, w').
Proof.
  apply (add_order_products_completes counting_tape (world_of unlinked_db)).
  - keys_ok.
  - reflexivity.
  - cbn. lia.
Defined.

(** ** The keys of the generated customers *)

Lemma fold_max_top (top : Z) (l : list Z) :
  Forall (fun z => z <= top) l -> fold_right Z.max top l = top.
Proof.
  induction 1 as [|z l Hz Hl IH]; [reflexivity|].
  cbn [fold_right]. rewrite IH. lia.
Qed.

Lemma next_id_seq (n : nat) :
  next_id (map Z.of_nat (seq 1 n)) = Z.of_nat (S n).
Proof.
  unfold next_id.
  assert (H : fold_right Z.max 0 (map Z.of_nat (seq 1 n)) = Z.of_nat n).
  { destruct n as [|n]; [reflexivity|].
    rewrite seq_S, map_app, fold_right_app. cbn [map fold_right].
    replace (Z.max (Z.of_nat (1 + n)) 0) with (Z.of_nat (S n)) by lia.
    apply fold_max_top. apply Forall_forall. intros z Hz.
    apply in_map_iff in Hz. destruct Hz as (i & <- & Hi).
    apply in_seq in Hi. lia. }
  rewrite H. lia.
Qed.

Lemma insert_all_customers_ids pending :
  forall d d' n,
    Forall (keyed Customer.id) pending ->
    map Customer.id (customers d) = map Z.of_nat (seq 1 n) ->
    insert_all insert_customer pending d = Ok d' ->
    map Customer.id (customers d')
    = map Z.of_nat (seq 1 (n + List.length pending)).
Proof.
  induction pending as [|c pending IH]; intros d d' n Hkey Hids;
    cbn [insert_all].
  - intros [= <-]. cbn [List.length]. now rewrite Nat.add_0_r.
  - inversion Hkey as [|? ? Hc Hkey']; subst.
    unfold insert_customer at 1. destruct (existsb _ _); [discriminate|].
    intros H. apply (IH _ _ (S n) Hkey') in H.
    + cbn [List.length]. now rewrite Nat.add_succ_r.
    + cbn [customers]. rewrite map_app. cbn [map].
      rewrite Hc, Hids, next_id_seq, seq_S, map_app. reflexivity.
Qed.

(** X22. On an empty customer table [add_customers] gives the customers the
    keys 1 to 100, in the order in which they were made. *)
Theorem add_customers_keys (tape : N -> N) (fake : Faker.t) (w w' : World) :
  customers (db w) = [] ->
  add_customers tape fake w = Ok (tt, w') ->
  map Customer.id (customers (db w')) = map Z.of_nat (seq 1 100).
Proof.
  unfold add_customers. intros Hnone H. apply bind_ok in H.
  destruct H as (pending & w1 & Hgen & Hcommit).
  destruct (reads_replicateM (db w) 100 _ _
              (reads_new_customer tape fake (db w))
              w pending w1 eq_refl Hgen) as (Hdb & Hlen & Hall).
  apply commit_ok in Hcommit. rewrite Hdb in Hcommit.
  apply (insert_all_customers_ids pending _ _ 0 Hall) in Hcommit.
  - now rewrite Hlen in Hcommit.
  - now rewrite Hnone.
Qed.

Lemma add_customers_keys_witness :
  map Customer.id (customers (db after_add_customers))
  = map Z.of_nat (seq 1 100).
Proof.
  exact (add_customers_keys counting_tape demo_fake (world_of empty_db)
           after_add_customers eq_refl add_customers_demo_run).
Defined.

(** ** The revenue of the generated year *)

Lemma zsum_bounds (lo hi : Z) (l : list Z) :
  Forall (fun v => lo <= v <= hi) l ->
  lo * Z.of_nat (List.length l) <= zsum (fun v => v) l
  <= hi * Z.of_nat (List.length l).
Proof.
  induction 1 as [|v l Hv Hl IH]; [cbn; lia|].
  cbn [zsum]. change (List.length (v :: l)) with (S (List.length l)).
  rewrite Nat2Z.inj_succ. lia.
Qed.

Lemma not_null_all {A B} (f : A -> option B) (Q : B -> Prop) (l : list A) :
  Forall (fun a => exists b, f a = Some b /\ Q b) l ->
  List.length (not_null (map f l)) = List.length l
  /\ Forall Q (not_null (map f l)).
Proof.
  induction 1 as [|a l (b & Hb & HQ) Hl [IHlen IHall]];
    [split; [reflexivity | constructor]|].
  cbn [map not_null]. rewrite Hb. cbn [List.length].
  split; [congruence | now constructor].
Qed.

Lemma find_key_in {A} (key : A -> Z) (k : Z) (l : list A) :
  In k (map key l) ->
  exists a, find (fun a => key a =? k) l = Some a /\ In a l.
Proof.
  intros Hin. destruct (find_key_some key k l Hin) as [a Ha].
  exists a. split; [exact Ha|]. apply find_some in Ha. tauto.
Qed.

(** Every association row counts when its order is recent and its price is
    within bounds. *)
Lemma revenue_prices_bounds (cutoff : datetime) (lo hi : Z) (d : Database) :
  Forall (refers d) (order_product d) ->
  Forall (fun o => cutoff < Order.order_date o) (orders d) ->
  Forall (fun p => lo <= Product.price p <= hi) (products d) ->
  List.length (revenue_prices cutoff d) = List.length (order_product d)
  /\ Forall (fun v => lo <= v <= hi) (revenue_prices cutoff d).
Proof.
  intros Hrefer Hrecent Hprices. unfold revenue_prices.
  apply not_null_all. eapply Forall_impl; [|exact Hrefer].
  intros r [Ho Hp]. unfold row_revenue, find_order, find_product.
  destruct (find_key_in Order.id _ _ Ho) as (o & -> & Hino).
  destruct (find_key_in Product.id _ _ Hp) as (p & -> & Hinp).
  rewrite Forall_forall in Hrecent, Hprices.
  specialize (Hrecent o Hino). specialize (Hprices p Hinp).
  replace (Order.order_date o >? cutoff) with true
    by (symmetry; apply Z.gtb_lt; lia).
  now exists (Product.price p).
Qed.

(** What the generator leaves when it started on an empty database. *)
Lemma create_random_data_database tape fake now w w' :
  db w = empty_db ->
  create_random_data tape fake now w = Ok (tt, w') ->
  primary_keys_ok (db w')
  /\ Forall (dates_within (Faker.year_start fake now) now) (orders (db w'))
  /\ Forall (fun p => 10 <= Product.price p <= 100) (products (db w'))
  /\ Forall (refers (db w')) (order_product (db w'))
  /\ (1000 <= List.length (order_product (db w')) <= 3000)%nat.
Proof.
  intros Hempty H. apply create_random_data_steps in H.
  destruct H as (w1 & w2 & w3 & H1 & H2 & H3 & H4).
  apply add_customers_ok in H1. destruct H1 as (_ & Ho1 & Hp1 & Hop1 & Hk1).
  destruct (add_orders_generated tape fake now _ w1 tt w2
              (reads_new_order_within tape _ fake now _) H2)
    as (generated & Ho2 & Hwithin).
  apply add_orders_ok in H2.
  destruct H2 as (Hc2 & Hp2 & Hop2 & Hk2 & generated' & Ho2' & Hn2 & _).
  pose proof (add_products_ok _ _ _ _ _ H3) as (Hc3 & Ho3 & Hop3 & Hk3).
  apply add_products_rows in H3. destruct H3 as (_ & made & Hp3 & _ & Hmade).
  apply add_order_products_ok in H4.
  destruct H4 as (Hc4 & Ho4 & Hp4 & pending & Hop4 & Hall).
  rewrite Hempty in *. cbn in Ho1, Hp1, Hop1, Hk1.
  assert (Hnone : order_product (db w3) = []) by congruence.
  rewrite Ho1 in Ho2, Ho2', Hk2. cbn [app] in Ho2, Ho2'.
  rewrite Hp2, Hp1 in Hp3, Hk3. cbn [app] in Hp3.
  assert (Hrows : order_product (db w') = List.concat pending)
    by now rewrite Hop4, Hnone.
  split; [|split; [|split; [|split]]].
  - split; [|split].
    + rewrite Hc4, Hc3, Hc2. apply Hk1. constructor.
    + rewrite Ho4, Ho3. apply Hk2. constructor.
    + rewrite Hp4. apply Hk3. constructor.
  - now rewrite Ho4, Ho3, Ho2.
  - now rewrite Hp4, Hp3.
  - rewrite Hrows.
    assert (Hrefer : Forall (refers (db w3)) (List.concat pending))
      by (apply (pending_refer (db w3) (orders (db w3)));
          [apply incl_refl | exact Hall]).
    eapply Forall_impl; [|exact Hrefer].
    intros r [Hr1 Hr2]. unfold refers. now rewrite Ho4, Hp4.
  - rewrite Hrows.
    pose proof (pending_count (db w3) _ _ Hnone Hall) as Hcount.
    assert (Horders : List.length (orders (db w3)) = 1000%nat)
      by (rewrite Ho3, Ho2'; exact Hn2).
    lia.
Qed.

(** X23. After [create_random_data] completed on an empty database, the
    revenue of a window that reaches back before the second in which the
    year started, to a date that Python can hold, counts every association
    row: it is a number between 10000 and 300000. *)
Theorem revenue_of_generated_year (tape : N -> N) (fake : Faker.t)
  (now : datetime) (x_days : Z) (w w' : World) :
  db w = empty_db ->
  create_random_data tape fake now w = Ok (tt, w') ->
  cutoff_in_range now x_days ->
  days_before now x_days
  < of_seconds (whole_seconds (Faker.year_start fake now)) ->
  exists revenue,
    revenue_query now x_days (db w') = Ok (Some revenue)
    /\ 10000 <= revenue <= 300000.
Proof.
  intros Hempty H Hrange Hwindow.
  destruct (create_random_data_database tape fake now w w' Hempty H)
    as (Hkeys & Hwithin & Hprices & Hrefer & Hcount).
  destruct (revenue_prices_bounds (days_before now x_days) 10 100 (db w'))
    as (Hlen & Hbounds); try assumption.
  { eapply Forall_impl; [|exact Hwithin].
    intros o (Hstart & _). lia. }
  pose proof (zsum_bounds 10 100 _ Hbounds) as Hsum.
  rewrite Hlen in Hsum.
  rewrite (revenue_query_refines now x_days (db w') Hkeys Hrange).
  - unfold revenue_after, sum_or_null.
    destruct (revenue_prices _ _) as [|v vs] eqn:E.
    + cbn [List.length] in Hlen. lia.
    + eexists. split; [reflexivity|]. lia.
  - rewrite <- (map_id (revenue_prices _ _)).
    rewrite zsum_abs_of_nonneg; [lia|].
    intros v Hv. rewrite Forall_forall in Hbounds.
    specialize (Hbounds v Hv). lia.
Qed.

Lemma revenue_of_generated_year_witness :
  exists revenue,
    revenue_query noon 365 (db after_create_random_data) = Ok (Some revenue)
    /\ 10000 <= revenue <= 300000.
Proof.
  refine (revenue_of_generated_year counting_tape demo_fake noon 365
            (world_of empty_db) after_create_random_data eq_refl
            create_random_data_demo_run _ _).
  - vm_compute. intuition discriminate.
  - vm_compute. reflexivity.
Defined.
